(** * Photomosaic builder ([mosaic.py]): a shallow embedding and its properties

    The program has four functions: [average_color], [resize_image],
    [closest_image] and [create_mosaic].  They are embedded below in the
    order of the source.  The numeric kernels of numpy are written out on
    IEEE 754 binary64 numbers (the specification of the Standard Library,
    [SpecFloat], at precision 53 and maximal exponent 1024); the raster
    primitives of PIL that the program calls ([Image.new], [crop], [paste])
    are written out on a small image type; what the program obtains from
    its environment ([Image.open], [os.listdir], the resampling of
    [Image.resize]) is a variable of the section that holds the program. *)

From Stdlib Require Import Ascii String DecimalString ZArith List Bool Lia SpecFloat.
From Stdlib Require QArith.
Import ListNotations.
Open Scope Z_scope.

(** ** binary64 numbers *)

Module F64.

Definition prec : Z := 53.
Definition emax : Z := 1024.

Definition t := spec_float.

Definition zero : t := S754_zero false.

(** Conversion of an integer, rounding to nearest even. *)
Definition of_Z (z : Z) : t := binary_normalize prec emax z 0 false.

Definition add : t -> t -> t := SFadd prec emax.
Definition sub : t -> t -> t := SFsub prec emax.
Definition mul : t -> t -> t := SFmul prec emax.
Definition div : t -> t -> t := SFdiv prec emax.
Definition sqrt : t -> t := SFsqrt prec emax.

Definition leb : t -> t -> bool := SFleb.
Definition ltb : t -> t -> bool := SFltb.
(** [x >= y] of C and Python: false as soon as one side is a NaN. *)
Definition geb (x y : t) : bool := SFleb y x.

Definition isnan (x : t) : bool :=
  match x with S754_nan => true | _ => false end.

(** Neither a NaN nor an infinity. *)
Definition is_finite (x : t) : bool :=
  match x with S754_zero _ | S754_finite _ _ _ => true | _ => false end.

End F64.

(** ** Exceptions, output and the monad of the program

    A run either returns a value or raises an exception, and in both cases
    it leaves the effects it had until then: the lines it printed and the
    tiles it pasted into the canvas. *)

Inductive exn : Type :=
| AssertionError (msg : string)
| IndexError (msg : string)
| ValueError (msg : string)
| ZeroDivisionError
| OSError (msg : string).

(** A colour is the one-dimensional float array that [np.mean] returns. *)
Definition color := list F64.t.

Inductive line : Type :=
| WarningIgnoringAlpha
| LoadingTarget
| TargetLoaded (w h : Z)
| GridInfo (columns rows cell_width cell_height : Z)
| LoadingTiles
| ErrorConverting (file_name : string) (e : exn)
| Processed (n : Z)
| AllLoaded (n : nat)
| ColorLine (c : color)
| StartingMosaic
| CompletedRow (i columns : Z)
| MosaicComplete.

(** An effect of the program: a line on the standard output, or a call
    [mosaic_image.paste(best_tile, (left, top))], recorded with the index
    of the tile in the tile set and with the size of the tile, which is the
    size of the rectangle that the call writes. *)
Inductive event : Type :=
| Print (l : line)
| Paste (tile_index : nat) (left top : Z) (size : Z * Z).

Definition M (A : Type) : Type := (exn + A) * list event.

Definition ret {A} (a : A) : M A := (inr a, []).

Definition bind {A B} (m : M A) (k : A -> M B) : M B :=
  match m with
  | (inl e, out) => (inl e, out)
  | (inr a, out) => let (r, out') := k a in (r, out ++ out')
  end.

Definition raise {A} (e : exn) : M A := (inl e, []).

Definition emit (ev : event) : M unit := (inr tt, [ev]).

Definition print (l : line) : M unit := emit (Print l).

(** [try: body except Exception as e: handler e]. *)
Definition try_except {A} (body : M A) (handler : exn -> M A) : M A :=
  match body with
  | (inl e, out) => let (r, out') := handler e in (r, out ++ out')
  | (inr a, out) => (inr a, out)
  end.

(** A result of the environment, which has no effect of the program. *)
Definition lift {A} (r : exn + A) : M A := (r, []).

Declare Scope monad_scope.
Delimit Scope monad_scope with monad.
Notation "x <- m ;; k" := (bind m (fun x => k))
  (at level 61, m at next level, right associativity) : monad_scope.
Notation "m ;; k" := (bind m (fun _ => k))
  (at level 61, right associativity) : monad_scope.
Open Scope monad_scope.

(** [for x in xs: body x], with a state threaded through the iterations. *)
Fixpoint for_fold {A S} (xs : list A) (body : S -> A -> M S) (s : S) : M S :=
  match xs with
  | [] => ret s
  | x :: xs' => s' <- body s x ;; for_fold xs' body s'
  end.

Definition for_each {A} (xs : list A) (body : A -> M unit) : M unit :=
  for_fold xs (fun _ x => body x) tt.

(** [range(n)]: empty when [n] is not positive. *)
Definition range (n : Z) : list Z := map Z.of_nat (seq 0 (Z.to_nat n)).

(** [enumerate(xs)]. *)
Definition enumerate {A} (xs : list A) : list (Z * A) :=
  combine (range (Z.of_nat (length xs))) xs.

(** ** Images (PIL) *)

Module PIL.

(** The modes of the images of the data model: one band of grey levels,
    grey levels with an alpha band, RGB, and RGB with an alpha band. *)
Inductive mode : Type := L | LA | RGB | RGBA.

Definition bands (m : mode) : nat :=
  match m with L => 1 | LA => 2 | RGB => 3 | RGBA => 4 end%nat.

(** A raster: [px x y] is the list of the samples of the pixel in column
    [x] and row [y], one sample per band. *)
Record Image : Type := mkImage {
  im_mode : mode;
  size : Z * Z;
  px : Z -> Z -> list Z
}.

Definition width (im : Image) : Z := fst (size im).
Definition height (im : Image) : Z := snd (size im).

Definition sample (im : Image) (x y : Z) (c : nat) : Z := nth c (px im x y) 0.

Definition inside (im : Image) (x y : Z) : bool :=
  (0 <=? x) && (x <? width im) && (0 <=? y) && (y <? height im).

(** [Image.new(mode, size)]: every sample is zero. *)
Definition new (m : mode) (sz : Z * Z) : Image :=
  mkImage m sz (fun _ _ => repeat 0 (bands m)).

(** [im.crop((left, top, right, bottom))]: the rectangle of [im]; what
    lies outside [im] is zero. *)
Definition crop (im : Image) (box : Z * Z * Z * Z) : Image :=
  let '(x0, y0, x1, y1) := box in
  mkImage (im_mode im) (x1 - x0, y1 - y0)
    (fun x y =>
       if inside im (x + x0) (y + y0) then px im (x + x0) (y + y0)
       else repeat 0 (bands (im_mode im))).

(** Conversion of one pixel to the three bands of mode RGB: a grey
    level is repeated, an alpha band is dropped. *)
Definition to_rgb (m : mode) (p : list Z) : list Z :=
  match m with
  | L | LA => let v := nth 0 p 0 in [v; v; v]
  | RGB | RGBA => [nth 0 p 0; nth 1 p 0; nth 2 p 0]
  end.

(** [canvas.paste(im, (left, top))] on an RGB canvas: the pixels of [im]
    replace those of the rectangle of its size at [(left, top)], clipped
    to the canvas. *)
Definition paste (canvas im : Image) (left top : Z) : Image :=
  mkImage (im_mode canvas) (size canvas)
    (fun x y =>
       if inside canvas x y && inside im (x - left) (y - top)
       then to_rgb (im_mode im) (px im (x - left) (y - top))
       else px canvas x y).

End PIL.

(** ** Arrays (numpy) *)

Module Np.

(** An array of integer samples in row-major order. *)
Record ndarray : Type := mkArray {
  shape : list Z;
  data : list Z
}.

(** [np.array(image)]: shape [(height, width)] for a one-band image and
    [(height, width, bands)] otherwise. *)
Definition array (im : PIL.Image) : ndarray :=
  let b := PIL.bands (PIL.im_mode im) in
  mkArray
    (match PIL.im_mode im with
     | PIL.L => [PIL.height im; PIL.width im]
     | _ => [PIL.height im; PIL.width im; Z.of_nat b]
     end)
    (flat_map (fun y =>
       flat_map (fun x => map (PIL.sample im x y) (seq 0 b))
                (range (PIL.width im)))
       (range (PIL.height im))).

(** [np.stack([arr] * 3, axis=-1)]: a new last axis of length 3 that
    holds every element three times. *)
Definition stack3 (arr : ndarray) : ndarray :=
  mkArray (shape arr ++ [3]) (flat_map (fun v => [v; v; v]) (data arr)).

(** [arr.shape[-1]]. *)
Definition last_dim (arr : ndarray) : Z := last (shape arr) 0.

(** The sum of the elements at offset [k] of [n] consecutive blocks of
    length [inner]. *)
Fixpoint strided_sum (n inner k : nat) (d : list Z) : Z :=
  match n with
  | O => 0
  | S n' => nth k d 0 + strided_sum n' inner k (skipn inner d)
  end.

Definition product (l : list Z) : Z := fold_right Z.mul 1 l.

(** [np.mean(arr, axis=(0, 1))]: for each position of the remaining axes
    the sum of the samples, accumulated in binary64, divided by the
    number [shape[0] * shape[1]] of samples.  The sum of integer
    samples is exact in binary64 while it stays below [2^53], which
    holds for 8-bit images of fewer than [2^45] pixels. *)
Definition mean_axis01 (arr : ndarray) : color :=
  let count := nth 0 (shape arr) 0 * nth 1 (shape arr) 0 in
  let inner := Z.to_nat (product (skipn 2 (shape arr))) in
  map (fun k =>
         F64.div (F64.of_Z (strided_sum (Z.to_nat count) inner k (data arr)))
                 (F64.of_Z count))
      (seq 0 inner).

(** [np.argmin(d)] on a one-dimensional float array: the first position
    of a NaN when there is one, otherwise the first position of the
    least element.  [best] is the running minimum, at position [bi];
    [i] is the position of the head of [d]. *)
Fixpoint argmin_from (d : list F64.t) (i bi : nat) (best : F64.t) : nat :=
  match d with
  | [] => bi
  | x :: d' =>
      if F64.geb x best then argmin_from d' (S i) bi best
      else if F64.isnan x then i
      else argmin_from d' (S i) i x
  end.

Definition argmin (d : list F64.t) : exn + nat :=
  match d with
  | [] => inl (ValueError "attempt to get argmin of an empty sequence")
  | x :: d' => inr (if F64.isnan x then O else argmin_from d' 1 O x)
  end.

(** [a - b] where [a] is a row of a two-dimensional array and [b] a
    one-dimensional array: equal lengths, or one of them of length 1. *)
Definition broadcast_sub (a b : color) : exn + color :=
  if (length a =? length b)%nat then inr (map (fun p => F64.sub (fst p) (snd p)) (combine a b))
  else match a, b with
       | [x], _ => inr (map (fun y => F64.sub x y) b)
       | _, [y] => inr (map (fun x => F64.sub x y) a)
       | _, _ => inl (ValueError "operands could not be broadcast together")
       end.

(** [np.sum(row)] over the last axis, from the identity 0. *)
Definition sum_row (r : color) : F64.t := fold_left F64.add r F64.zero.

(** [np.array(colors)] on a list of one-dimensional arrays: the rows
    must have one length. *)
Definition array2 (rows : list color) : exn + list color :=
  match rows with
  | [] => inr []
  | r :: rows' =>
      if forallb (fun r' => (length r' =? length r)%nat) rows' then inr rows
      else inl (ValueError "inhomogeneous shape")
  end.

End Np.

(** ** The program *)

(** [a // b] on Python integers. *)
Definition floordiv (a b : Z) : M Z :=
  if b =? 0 then raise ZeroDivisionError else ret (a / b).

(** [xs[i]] on a Python list, for an index that is not negative. *)
Definition list_get {A} (xs : list A) (i : nat) : M A :=
  match nth_error xs i with
  | Some x => ret x
  | None => raise (IndexError "list index out of range")
  end.

(** Whether a path ends with the separator. *)
Fixpoint ends_with_sep (s : string) : bool :=
  match s with
  | EmptyString => false
  | String c EmptyString => Ascii.eqb c "/"%char
  | String _ s' => ends_with_sep s'
  end.

(** [os.path.join(d, f)] for a relative file name [f]. *)
Definition os_path_join (d f : string) : string :=
  match d with
  | EmptyString => f
  | _ => if ends_with_sep d then (d ++ f)%string else (d ++ "/" ++ f)%string
  end.

Fixpoint traverse {A B} (f : A -> exn + B) (l : list A) : exn + list B :=
  match l with
  | [] => inr []
  | a :: l' =>
      match f a with
      | inl e => inl e
      | inr b =>
          match traverse f l' with
          | inl e => inl e
          | inr bs => inr (b :: bs)
          end
      end
  end.

(** [average_color(image)], lines 6 to 20. *)
Definition average_color (image : PIL.Image) : M color :=
  let arr := Np.array image in
  let arr := if (length (Np.shape arr) =? 2)%nat then Np.stack3 arr else arr in
  (if Np.last_dim arr =? 4
   then print WarningIgnoringAlpha ;; raise (AssertionError "Image must be RGB")
   else ret tt) ;;
  ret (Np.mean_axis01 arr).

(** One entry of [np.sqrt(np.sum((tile_colors - target_color) ** 2, axis=1))]. *)
Definition distance (target_color tile_color : color) : exn + F64.t :=
  match Np.broadcast_sub tile_color target_color with
  | inl e => inl e
  | inr diff => inr (F64.sqrt (Np.sum_row (map (fun x => F64.mul x x) diff)))
  end.

Definition distances (tile_colors : list color) (target_color : color) : exn + list F64.t :=
  traverse (distance target_color) tile_colors.

(** [closest_image(tile_colors, target_color)], lines 26 to 29.  The array
    made of no colour has one axis only, and has no [axis=1] to sum over. *)
Definition closest_image (tile_colors : list color) (target_color : color) : exn + nat :=
  match tile_colors with
  | [] => inl (ValueError "axis 1 is out of bounds for array of dimension 1")
  | _ =>
      match distances tile_colors target_color with
      | inl e => inl e
      | inr d => Np.argmin d
      end
  end.

Section Mosaic.

(** [Image.open(path)]: the decoded image, or the error of the decoder. *)
Variable Image_open : string -> exn + PIL.Image.
(** [os.listdir(path)]: the names of the entries, in the order of the
    file system. *)
Variable os_listdir : string -> exn + list string.
(** [image.resize(size)]. *)
Variable Image_resize : PIL.Image -> Z * Z -> exn + PIL.Image.

(** [resize_image(image, size)], lines 22 to 24. *)
Definition resize_image (image : PIL.Image) (size : Z * Z) : M PIL.Image :=
  lift (Image_resize image size).

(** The body of the loop over the tile directory, lines 51 to 63; the
    state is the pair of [tile_images] and [tile_colors]. *)
Definition load_tile (tile_image_dir : string) (cell_width cell_height : Z)
    (st : list PIL.Image * list color) (entry : Z * string)
  : M (list PIL.Image * list color) :=
  let '(tile_images, tile_colors) := st in
  let '(idx, file_name) := entry in
  let tile_image_path := os_path_join tile_image_dir file_name in
  tile_image <- lift (Image_open tile_image_path) ;;
  resized_tile <- resize_image tile_image (cell_width, cell_height) ;;
  st' <- try_except
           (c <- average_color resized_tile ;;
            ret (tile_images ++ [resized_tile], tile_colors ++ [c]))
           (fun e => print (ErrorConverting file_name e) ;; ret st) ;;
  (if idx mod 10 =? 0 then print (Processed (idx + 1)) else ret tt) ;;
  ret st'.

(** The loop of lines 50 to 63. *)
Definition load_tiles (tile_image_dir : string) (cell_width cell_height : Z)
    (files : list string) : M (list PIL.Image * list color) :=
  for_fold (enumerate files) (load_tile tile_image_dir cell_width cell_height) ([], []).

(** The loop of lines 66 and 67. *)
Definition print_colors (tile_colors : list color) : M unit :=
  for_each (range 1000)
    (fun i => c <- list_get tile_colors (Z.to_nat i) ;; print (ColorLine c)).

(** The body of the inner loop, lines 77 to 92. *)
Definition place_tile (target_image : PIL.Image) (cell_width cell_height : Z)
    (tile_images : list PIL.Image) (tile_colors : list color)
    (i : Z) (mosaic_image : PIL.Image) (j : Z) : M PIL.Image :=
  let left := i * cell_width in
  let top := j * cell_height in
  let right := (i + 1) * cell_width in
  let bottom := (j + 1) * cell_height in
  let grid_cell := PIL.crop target_image (left, top, right, bottom) in
  target_color <- average_color grid_cell ;;
  tile_index <- lift (closest_image tile_colors target_color) ;;
  best_tile <- list_get tile_images tile_index ;;
  emit (Paste tile_index left top (PIL.size best_tile)) ;;
  ret (PIL.paste mosaic_image best_tile left top).

(** The loops of lines 75 to 95. *)
Definition build (target_image : PIL.Image) (grid_size : Z * Z)
    (cell_width cell_height : Z)
    (tile_images : list PIL.Image) (tile_colors : list color)
    (mosaic_image : PIL.Image) : M PIL.Image :=
  for_fold (range (fst grid_size))
    (fun mosaic_image i =>
       mosaic_image <- for_fold (range (snd grid_size))
         (place_tile target_image cell_width cell_height tile_images tile_colors i)
         mosaic_image ;;
       print (CompletedRow (i + 1) (fst grid_size)) ;;
       ret mosaic_image)
    mosaic_image.

(** [create_mosaic(target_image_path, tile_image_dir, grid_size)],
    lines 31 to 98. *)
Definition create_mosaic (target_image_path tile_image_dir : string)
    (grid_size : Z * Z) : M PIL.Image :=
  print LoadingTarget ;;
  target_image <- lift (Image_open target_image_path) ;;
  let '(target_width, target_height) := PIL.size target_image in
  print (TargetLoaded target_width target_height) ;;
  cell_width <- floordiv target_width (fst grid_size) ;;
  cell_height <- floordiv target_height (snd grid_size) ;;
  print (GridInfo (fst grid_size) (snd grid_size) cell_width cell_height) ;;
  print LoadingTiles ;;
  files <- lift (os_listdir tile_image_dir) ;;
  st <- load_tiles tile_image_dir cell_width cell_height files ;;
  let '(tile_images, tile_colors) := st in
  print (AllLoaded (length tile_images)) ;;
  print_colors tile_colors ;;
  tile_colors <- lift (Np.array2 tile_colors) ;;
  let mosaic_image := PIL.new PIL.RGB (target_width, target_height) in
  print StartingMosaic ;;
  mosaic_image <- build target_image grid_size cell_width cell_height
                    tile_images tile_colors mosaic_image ;;
  print MosaicComplete ;;
  ret mosaic_image.

End Mosaic.


(** * Notions of the statements and sample inputs *)

Definition Zsum (l : list Z) : Z := fold_right Z.add 0 l.

(** The arithmetic mean of band [c] over all pixels: the sum of the
    samples of the band, divided in binary64 by the number of pixels. *)
Definition arithmetic_mean (im : PIL.Image) (c : nat) : F64.t :=
  F64.div
    (F64.of_Z (Zsum (flat_map (fun y => map (fun x => PIL.sample im x y c)
                                            (range (PIL.width im)))
                              (range (PIL.height im)))))
    (F64.of_Z (PIL.width im * PIL.height im)).

Definition gray_2x2 : PIL.Image :=
  PIL.mkImage PIL.L (2, 2) (fun x y => [x + 2 * y + 1]).

(** A grey pixel of level 100 with an opaque alpha band, and an RGBA pixel. *)
Definition la_1x1 : PIL.Image :=
  PIL.mkImage PIL.LA (1, 1) (fun _ _ => [100; 255]).

Definition rgba_1x1 : PIL.Image :=
  PIL.mkImage PIL.RGBA (1, 1) (fun _ _ => [10; 20; 30; 255]).

(** The Euclidean distance of two colours in binary64: the square root of
    the sum of the squares of the differences of the components, each
    operation rounded to nearest. *)
Definition squared_distance (target_color tile_color : color) : F64.t :=
  Np.sum_row
    (map (fun p => F64.mul (F64.sub (fst p) (snd p)) (F64.sub (fst p) (snd p)))
         (combine tile_color target_color)).

Definition euclidean (target_color tile_color : color) : F64.t :=
  F64.sqrt (squared_distance target_color tile_color).

(** A colour in the sense of the data model: three components, each of
    them a number (neither a NaN nor an infinity). *)
Definition rgb_color (c : color) : bool :=
  (length c =? 3)%nat && forallb F64.is_finite c.

(** The sign of a binary64 number that is not a NaN. *)
Definition signed (s : bool) (x : F64.t) : Prop :=
  match x with
  | S754_zero s' | S754_infinity s' | S754_finite s' _ _ => s' = s
  | S754_nan => False
  end.

Definition black : color := [F64.of_Z 0; F64.of_Z 0; F64.of_Z 0].
Definition white : color := [F64.of_Z 255; F64.of_Z 255; F64.of_Z 255].
Definition grey : color := [F64.of_Z 128; F64.of_Z 128; F64.of_Z 128].

(** Two colours at the distances [sqrt (1 + 2^-52)] and [1] of black. *)
Definition nearly_unit : color :=
  [F64.of_Z 1; F64.div (F64.of_Z 1) (F64.of_Z (2 ^ 26)); F64.of_Z 0].
Definition unit_red : color := [F64.of_Z 1; F64.of_Z 0; F64.of_Z 0].

(** The exact value of a binary64 number, a rational, and the exact square
    of the Euclidean distance of two colours: the sum of the squares of the
    differences of the exact values, without any rounding.  A distance is
    not negative, so that two colours are at equal Euclidean distance of a
    target, or one is nearer than the other, exactly when it is so of the
    squares.  (A NaN and an infinity have no value; they are given 0, and
    the comparisons below are used on finite colours only.) *)
Module Exact.
Import QArith.

Definition value (x : F64.t) : Q :=
  match x with
  | S754_finite s m e =>
      ((if s then inject_Z (Z.neg m) else inject_Z (Z.pos m)) * Qpower (2 # 1) e)%Q
  | _ => 0%Q
  end.

Definition squared_distance (target_color tile_color : color) : Q :=
  fold_left Qplus
    (map (fun p => ((value (fst p) - value (snd p)) ^ 2)%Q)
         (combine tile_color target_color))
    0%Q.

Definition equidistant (target_color a b : color) : Prop :=
  (squared_distance target_color a == squared_distance target_color b)%Q.

Definition nearer (target_color a b : color) : Prop :=
  (squared_distance target_color a < squared_distance target_color b)%Q.

End Exact.

(** Two tiles of three pixels in a row, and their mean colours: the first
    has the means (1/3, 1/3, 2), the second the same means in the order
    (2, 1/3, 1/3), so that both colours are at one Euclidean distance of
    black. *)
Definition thirds_low : PIL.Image :=
  PIL.mkImage PIL.RGB (3, 1)
    (fun x _ => match x with 0 => [1; 1; 2] | _ => [0; 0; 2] end).
Definition thirds_high : PIL.Image :=
  PIL.mkImage PIL.RGB (3, 1)
    (fun x _ => match x with 0 => [2; 1; 1] | _ => [2; 0; 0] end).

Definition third_third_two : color :=
  [F64.div (F64.of_Z 1) (F64.of_Z 3); F64.div (F64.of_Z 1) (F64.of_Z 3); F64.of_Z 2].
Definition two_third_third : color :=
  [F64.of_Z 2; F64.div (F64.of_Z 1) (F64.of_Z 3); F64.div (F64.of_Z 1) (F64.of_Z 3)].

(** What the loop over the tile directory does to an entry before it
    computes its colour: the file is opened, then resized to the cell. *)
Definition prepare (Image_open : string -> exn + PIL.Image)
    (Image_resize : PIL.Image -> Z * Z -> exn + PIL.Image)
    (tile_image_dir : string) (cell_width cell_height : Z)
    (file_name : string) : exn + PIL.Image :=
  match Image_open (os_path_join tile_image_dir file_name) with
  | inl e => inl e
  | inr tile_image => Image_resize tile_image (cell_width, cell_height)
  end.

(** The colour of an image that [average_color] accepts. *)
Definition profile (im : PIL.Image) : option color :=
  match fst (average_color im) with
  | inr c => Some c
  | inl _ => None
  end.

Definition profiled (im : PIL.Image) : bool :=
  match profile im with Some _ => true | None => false end.

Definition colors_of (ims : list PIL.Image) : list color :=
  flat_map (fun im => match profile im with Some c => [c] | None => [] end) ims.

(** The state of the loop over the tile directory after [k] iterations. *)
Definition loop_state (Image_open : string -> exn + PIL.Image)
    (Image_resize : PIL.Image -> Z * Z -> exn + PIL.Image)
    (tile_image_dir : string) (cell_width cell_height : Z)
    (files : list string) (k : nat) : M (list PIL.Image * list color) :=
  for_fold (firstn k (enumerate files))
    (load_tile Image_open Image_resize tile_image_dir cell_width cell_height)
    ([], []).

(** The events of the loading of the tiles and those of the assembly. *)
Definition loading_event (ev : event) : bool :=
  match ev with
  | Print WarningIgnoringAlpha | Print (ErrorConverting _ _) | Print (Processed _)
  | Print (ColorLine _) => true
  | _ => false
  end.

Definition assembly_event (ev : event) : bool :=
  match ev with
  | Print StartingMosaic | Print (CompletedRow _ _) | Print MosaicComplete
  | Paste _ _ _ _ => true
  | _ => false
  end.

(** The policy that the loop would follow if every failure on an entry,
    at whatever step, made it skip the entry and go on: it would return
    the tiles that could be opened, resized and profiled, and their
    colours. *)
Definition skips_every_failure (Image_open : string -> exn + PIL.Image)
    (Image_resize : PIL.Image -> Z * Z -> exn + PIL.Image)
    (tile_image_dir : string) (cell_width cell_height : Z)
    (files : list string) : Prop :=
  let kept :=
    flat_map
      (fun f =>
         match prepare Image_open Image_resize tile_image_dir cell_width cell_height f with
         | inr im => if profiled im then [im] else []
         | inl _ => []
         end) files in
  exists out,
    load_tiles Image_open Image_resize tile_image_dir cell_width cell_height files
    = (inr (kept, colors_of kept), out).

(** *** A sample environment *)

(** An image of one colour. *)
Definition solid (m : PIL.mode) (w h : Z) (p : list Z) : PIL.Image :=
  PIL.mkImage m (w, h) (fun _ _ => p).

(** Resampling to the nearest neighbour, which stands for the filter of
    [Image.resize]; as that one does, it rejects a size without pixels. *)
Definition resize_nearest (im : PIL.Image) (size : Z * Z) : exn + PIL.Image :=
  let '(w, h) := size in
  if (w <? 1) || (h <? 1) then inl (ValueError "height and width must be > 0")
  else inr (PIL.mkImage (PIL.im_mode im) (w, h)
              (fun x y => PIL.px im (x * PIL.width im / w) (y * PIL.height im / h))).

(** A file system: the decoding of each image file, and the entries of
    each directory in the order of the listing. *)
Record file_system : Type := mkFs {
  fs_files : list (string * (exn + PIL.Image));
  fs_dirs : list (string * list string)
}.

Definition fs_open (fs : file_system) (path : string) : exn + PIL.Image :=
  match find (fun entry => String.eqb (fst entry) path) (fs_files fs) with
  | Some (_, r) => r
  | None => inl (OSError "No such file or directory")
  end.

Definition fs_listdir (fs : file_system) (path : string) : exn + list string :=
  match find (fun entry => String.eqb (fst entry) path) (fs_dirs fs) with
  | Some (_, names) => inr names
  | None => inl (OSError "No such file or directory")
  end.

(** A 2x2 target whose four pixels are black, red, green and white. *)
Definition target_2x2 : PIL.Image :=
  PIL.mkImage PIL.RGB (2, 2)
    (fun x y =>
       match x, y with
       | 0, 0 => [0; 0; 0]
       | 1, 0 => [255; 0; 0]
       | 0, 1 => [0; 255; 0]
       | _, _ => [255; 255; 255]
       end).

Definition small_fs : file_system :=
  mkFs
    [ ("target.png", inr target_2x2);
      ("tiles/red.png", inr (solid PIL.RGB 3 3 [255; 0; 0]));
      ("tiles/clear.png", inr (solid PIL.RGBA 2 2 [0; 0; 0; 0]));
      ("tiles/blue.png", inr (solid PIL.RGB 1 1 [0; 0; 255]));
      ("glass/clear.png", inr (solid PIL.RGBA 2 2 [0; 0; 0; 0]));
      ("glass/pane.png", inr (solid PIL.RGBA 4 4 [255; 255; 255; 128]));
      ("mixed/notes.txt", inl (OSError "cannot identify image file"));
      ("mixed/red.png", inr (solid PIL.RGB 3 3 [255; 0; 0])) ]%string
    [ ("tiles", ["red.png"; "clear.png"; "blue.png"]);
      ("glass", ["clear.png"; "pane.png"]);
      ("mixed", ["notes.txt"; "red.png"]);
      ("empty", []) ]%string.

(** The statements of [create_mosaic] that follow the loop over the tile
    directory, lines 65 to 98. *)
Definition after_loading (target_image : PIL.Image) (grid_size : Z * Z)
    (cell_width cell_height : Z) (st : list PIL.Image * list color) : M PIL.Image :=
  let '(tile_images, tile_colors) := st in
  print (AllLoaded (length tile_images)) ;;
  print_colors tile_colors ;;
  tile_colors <- lift (Np.array2 tile_colors) ;;
  let mosaic_image := PIL.new PIL.RGB (PIL.size target_image) in
  print StartingMosaic ;;
  mosaic_image <- build target_image grid_size cell_width cell_height
                    tile_images tile_colors mosaic_image ;;
  print MosaicComplete ;;
  ret mosaic_image.

(** The lines that [create_mosaic] prints before it lists the directory. *)
Definition preamble (target_image : PIL.Image) (grid_size : Z * Z) : list event :=
  [ Print LoadingTarget;
    Print (TargetLoaded (PIL.width target_image) (PIL.height target_image));
    Print (GridInfo (fst grid_size) (snd grid_size)
             (PIL.width target_image / fst grid_size)
             (PIL.height target_image / snd grid_size));
    Print LoadingTiles ].



(** [Image.resize] returns an image of the size it is asked for. *)
Definition resizes_to_size
    (Image_resize : PIL.Image -> Z * Z -> exn + PIL.Image) : Prop :=
  forall im size im', Image_resize im size = inr im' -> PIL.size im' = size.

(** The part of the canvas that the cells of the grid cover. *)
Definition grid_region (grid_size : Z * Z) (cell_width cell_height : Z)
    (x y : Z) : Prop :=
  0 <= x < fst grid_size * cell_width /\ 0 <= y < snd grid_size * cell_height.

(** A paste of a tile of the size of a cell at the offset of a cell of the
    grid (a printed line is no paste). *)
Definition at_cell_offset (grid_size : Z * Z) (cell_width cell_height : Z)
    (ev : event) : Prop :=
  match ev with
  | Paste _ x0 y0 size =>
      exists i j, 0 <= i < fst grid_size /\ 0 <= j < snd grid_size
                  /\ x0 = i * cell_width /\ y0 = j * cell_height
                  /\ size = (cell_width, cell_height)
  | Print _ => True
  end.

(** The canvas [c] has the size of [c0] and its pixels outside the region
    of the grid. *)
Definition framed (grid_size : Z * Z) (cell_width cell_height : Z)
    (c0 c : PIL.Image) : Prop :=
  PIL.size c = PIL.size c0
  /\ forall x y, ~ grid_region grid_size cell_width cell_height x y ->
                 PIL.px c x y = PIL.px c0 x y.

(** A directory of a thousand tiles of one pixel each, of distinct names,
    next to the 2x2 target. *)
Definition tile_name (k : nat) : string :=
  ("tile" ++ NilEmpty.string_of_uint (Nat.to_uint k) ++ ".png")%string.

Definition tile_pixel (k : nat) : list Z :=
  [Z.of_nat k mod 256; (Z.of_nat k / 4) mod 256; (7 * Z.of_nat k) mod 256].

Definition big_fs : file_system :=
  mkFs
    (("target.png"%string, inr target_2x2)
       :: map (fun k => (("tiles/" ++ tile_name k)%string,
                         inr (solid PIL.RGB 1 1 (tile_pixel k))))
              (seq 0 1000))
    [("tiles"%string, map tile_name (seq 0 1000))].

(** The same directory and target in a file system that has one more file
    and one more directory. *)
Definition bigger_fs : file_system :=
  mkFs
    (("notes.txt"%string, inl (OSError "cannot identify image file"))
       :: fs_files big_fs)
    (("other"%string, ["notes.txt"%string]) :: fs_dirs big_fs).

(** Two tiles of two pixels and of one mean colour: black then white, and
    white then black. *)
Definition black_white : PIL.Image :=
  PIL.mkImage PIL.RGB (2, 1) (fun x _ => if x =? 0 then [0; 0; 0] else [255; 255; 255]).

Definition white_black : PIL.Image :=
  PIL.mkImage PIL.RGB (2, 1) (fun x _ => if x =? 0 then [255; 255; 255] else [0; 0; 0]).

(** A thousand tiles of which the two above are the nearest to a grey
    target, listed in the order given. *)
Definition tie_fs (first second : string) : file_system :=
  mkFs
    ([ ("target.png", inr (solid PIL.RGB 2 1 [127; 127; 127]));
       ("tiles/bw.png", inr black_white);
       ("tiles/wb.png", inr white_black) ]%string
       ++ map (fun k => (("tiles/" ++ tile_name k)%string,
                         inr (solid PIL.RGB 2 1 [255; 0; 0])))
              (seq 0 998))
    [("tiles"%string, first :: second :: map tile_name (seq 0 998))].

(** * Further notions and sample inputs *)

(** An RGB image and a one-band image that have no pixel. *)
Definition rgb_0x2 : PIL.Image := solid PIL.RGB 0 2 [1; 2; 3].
Definition gray_3x0 : PIL.Image := solid PIL.L 3 0 [7].

(** The thousand tiles of the sample next to a target that has an alpha
    band. *)
Definition rgba_target_fs : file_system :=
  mkFs
    (("target.png"%string, inr (solid PIL.RGBA 2 2 [10; 20; 30; 255]))
       :: fs_files big_fs)
    (fs_dirs big_fs).

(** The index of the tile that the assembly selects for the cell of column
    [i] and row [j]: the one that [closest_image] returns on the colour of
    the cell (0 stands for no index when one of the two calls raises). *)
Definition tile_of (target_image : PIL.Image) (cell_width cell_height : Z)
    (tile_colors : list color) (i j : Z) : nat :=
  match fst (average_color
               (PIL.crop target_image
                  (i * cell_width, j * cell_height,
                   (i + 1) * cell_width, (j + 1) * cell_height))) with
  | inr c =>
      match closest_image tile_colors c with
      | inr k => k
      | inl _ => O
      end
  | inl _ => O
  end.

(** The effects of an assembly that ends: column after column, one paste
    per row and then the line that reports the column. *)
Definition assembly_trace (target_image : PIL.Image) (grid_size : Z * Z)
    (cell_width cell_height : Z) (tile_colors : list color) : list event :=
  flat_map
    (fun i =>
       map (fun j =>
              Paste (tile_of target_image cell_width cell_height tile_colors i j)
                (i * cell_width) (j * cell_height) (cell_width, cell_height))
           (range (snd grid_size))
       ++ [Print (CompletedRow (i + 1) (fst grid_size))])
    (range (fst grid_size)).

(** The cell of column [i] and row [j] of the canvas shows the tile that
    is nearest to the colour of that cell of the target. *)
Definition cell_shows (target_image : PIL.Image) (cell_width cell_height : Z)
    (tile_images : list PIL.Image) (tile_colors : list color)
    (canvas : PIL.Image) (i j : Z) : Prop :=
  exists (c : color) (k : nat) (tile : PIL.Image),
    average_color
      (PIL.crop target_image
         (i * cell_width, j * cell_height,
          (i + 1) * cell_width, (j + 1) * cell_height)) = (inr c, [])
    /\ closest_image tile_colors c = inr k
    /\ nth_error tile_images k = Some tile
    /\ forall dx dy,
         0 <= dx < cell_width -> 0 <= dy < cell_height ->
         PIL.px canvas (i * cell_width + dx) (j * cell_height + dy)
         = PIL.to_rgb (PIL.im_mode tile) (PIL.px tile dx dy).

(** ** The statements of the module, lines 109 to 115 *)

(** The effects of the script: those of [create_mosaic], the display of an
    image by [show()], and the call of [save(path)] on an image. *)
Inductive script_event : Type :=
| Ran (ev : event)
| Display (im : PIL.Image)
| Save (im : PIL.Image) (path : string).

Section Script.

Variable Image_open : string -> exn + PIL.Image.
Variable os_listdir : string -> exn + list string.
Variable Image_resize : PIL.Image -> Z * Z -> exn + PIL.Image.
(** [image.save(path)]. *)
Variable Image_save : PIL.Image -> string -> exn + unit.

(** Lines 112 to 115, for the values that lines 109 to 111 assign. *)
Definition run_script (target_image_path tile_image_dir : string)
    (grid_size : Z * Z) : (exn + unit) * list script_event :=
  match create_mosaic Image_open os_listdir Image_resize
          target_image_path tile_image_dir grid_size with
  | (inl e, out) => (inl e, map Ran out)
  | (inr mosaic_image, out) =>
      match Image_resize mosaic_image (3000 * 5, 4000 * 5) with
      | inl e => (inl e, map Ran out)
      | inr shown =>
          (Image_save mosaic_image "mosaic_output.jpg",
           map Ran out ++ [Display shown; Save mosaic_image "mosaic_output.jpg"])
      end
  end.

(** The script, with the paths and the grid size of lines 109 to 111. *)
Definition script : (exn + unit) * list script_event :=
  run_script "./in/02-inputs/mosaic-target.jpeg" "./out" (300, 400).

End Script.

(** The mean of band [k] of the image over the rectangle of width [w] and
    height [h] whose corner is [(x0, y0)]. *)
Definition region_mean (im : PIL.Image) (x0 y0 w h : Z) (k : nat) : F64.t :=
  F64.div
    (F64.of_Z (Zsum (flat_map (fun y => map (fun x => PIL.sample im (x + x0) (y + y0) k)
                                            (range w))
                              (range h))))
    (F64.of_Z (w * h)).

(** The file names that the lines "Error converting ... to RGB" report. *)
Definition reported (out : list event) : list string :=
  flat_map (fun ev => match ev with
                      | Print (ErrorConverting file_name _) => [file_name]
                      | _ => []
                      end) out.

(** An entry that the loop over the tile directory skips: it is opened and
    resized, and [average_color] raises on it. *)
Definition skipped (Image_open : string -> exn + PIL.Image)
    (Image_resize : PIL.Image -> Z * Z -> exn + PIL.Image)
    (tile_image_dir : string) (cell_width cell_height : Z)
    (file_name : string) : bool :=
  match prepare Image_open Image_resize tile_image_dir
          cell_width cell_height file_name with
  | inr im => negb (profiled im)
  | inl _ => false
  end.

(** * Properties *)

(** ** Elementary facts on the monad and on ranges *)

Lemma range_length (n : Z) : length (range n) = Z.to_nat n.
Proof. unfold range. now rewrite length_map, length_seq. Qed.

Lemma in_range (n i : Z) : In i (range n) <-> 0 <= i < n.
Proof.
  unfold range. rewrite in_map_iff. split.
  - intros (k & <- & Hk). apply in_seq in Hk. lia.
  - intros H. exists (Z.to_nat i). split; [lia|]. apply in_seq. lia.
Qed.

Lemma flat_map_singleton {A B} (f : A -> B) (l : list A) :
  flat_map (fun a => [f a]) l = map f l.
Proof. induction l as [|a l IH]; simpl; [reflexivity|now rewrite IH]. Qed.

Lemma flat_map_length_const {A B} (f : A -> list B) (n : nat) (l : list A) :
  (forall a, length (f a) = n) -> length (flat_map f l) = (length l * n)%nat.
Proof.
  intros Hf. induction l as [|a l IH]; simpl; [reflexivity|].
  now rewrite length_app, Hf, IH.
Qed.

(** ** The colour of a one-band image *)

Lemma strided_sum_stack3 (d : list Z) (k : nat) :
  (k < 3)%nat ->
  Np.strided_sum (length d) 3 k (flat_map (fun v => [v; v; v]) d) = Zsum d.
Proof.
  intros Hk. induction d as [|a d IH]; [reflexivity|].
  cbn [length flat_map Np.strided_sum Zsum fold_right app skipn].
  fold (Zsum d). rewrite IH. f_equal.
  destruct k as [|[|[|k]]]; try reflexivity; lia.
Qed.

Lemma array_L_data (im : PIL.Image) :
  PIL.im_mode im = PIL.L ->
  Np.data (Np.array im)
  = flat_map (fun y => map (fun x => PIL.sample im x y 0) (range (PIL.width im)))
             (range (PIL.height im)).
Proof.
  intros Hm. unfold Np.array. rewrite Hm. cbn [Np.data PIL.bands seq map].
  apply flat_map_ext. intros y. apply flat_map_singleton.
Qed.

Lemma array_L_length (im : PIL.Image) :
  PIL.im_mode im = PIL.L -> 0 <= PIL.width im -> 0 <= PIL.height im ->
  length (Np.data (Np.array im)) = Z.to_nat (PIL.height im * PIL.width im).
Proof.
  intros Hm Hw Hh. rewrite (array_L_data im Hm).
  rewrite (flat_map_length_const _ (Z.to_nat (PIL.width im))).
  - rewrite range_length. lia.
  - intros y. now rewrite length_map, range_length.
Qed.

(** The colour of a one-band image, whatever its size (the three
    components are NaN when the image has no pixel). *)
Lemma average_color_L (im : PIL.Image) :
  PIL.im_mode im = PIL.L -> 0 <= PIL.width im -> 0 <= PIL.height im ->
  average_color im
  = ret [arithmetic_mean im 0; arithmetic_mean im 0; arithmetic_mean im 0].
Proof.
  intros Hm Hw Hh.
  pose proof (array_L_length im Hm Hw Hh) as Hlen.
  pose proof (array_L_data im Hm) as Hdata.
  unfold average_color.
  assert (Hshape : Np.shape (Np.array im) = [PIL.height im; PIL.width im])
    by (unfold Np.array; now rewrite Hm).
  rewrite Hshape. cbn [length Nat.eqb].
  unfold Np.last_dim, Np.stack3, Np.mean_axis01. cbn [Np.shape Np.data].
  rewrite Hshape. cbn [app last nth skipn Np.product fold_right Z.eqb Pos.eqb].
  cbn [bind ret app]. change (Z.to_nat (3 * 1)) with 3%nat. cbn [seq map].
  rewrite <- Hlen, !strided_sum_stack3 by lia.
  unfold arithmetic_mean. rewrite <- Hdata.
  now rewrite (Z.mul_comm (PIL.width im)).
Qed.

(** C7.  For every single-channel (grayscale) image of size at least 1x1,
    [average_color] returns a colour of three components, each of them the
    arithmetic mean of the single channel over all pixels. *)
Theorem average_color_grayscale (im : PIL.Image) :
  PIL.im_mode im = PIL.L -> 1 <= PIL.width im -> 1 <= PIL.height im ->
  exists m : F64.t,
    average_color im = (inr [m; m; m], []) /\ m = arithmetic_mean im 0.
Proof.
  intros Hm Hw Hh. exists (arithmetic_mean im 0). split; [|reflexivity].
  apply average_color_L; [assumption|lia|lia].
Qed.

Lemma average_color_grayscale_witness :
  exists m : F64.t,
    average_color gray_2x2 = (inr [m; m; m], [])
    /\ m = arithmetic_mean gray_2x2 0.
Proof.
  apply (average_color_grayscale gray_2x2); [reflexivity|vm_compute; discriminate..].
Defined.

(** The mean of the samples 1, 2, 3 and 4 is 2.5, that is 5 * 2^-1. *)
Example average_color_gray_2x2 :
  average_color gray_2x2
  = (inr (repeat (F64.div (F64.of_Z 10) (F64.of_Z 4)) 3), []).
Proof. reflexivity. Qed.

(** ** Images with an alpha band *)

(** A four-band image is rejected, after the warning is printed. *)
Lemma average_color_RGBA_fails (im : PIL.Image) :
  PIL.im_mode im = PIL.RGBA ->
  average_color im
  = (inl (AssertionError "Image must be RGB"), [Print WarningIgnoringAlpha]).
Proof.
  intros Hm. unfold average_color, Np.array, Np.last_dim. rewrite Hm. reflexivity.
Qed.

(** A two-band image (grey level and alpha) is not rejected: a colour of
    two components comes back, the second one the mean of the alpha band. *)
Lemma average_color_LA_returns (im : PIL.Image) :
  PIL.im_mode im = PIL.LA ->
  exists m a : F64.t, average_color im = (inr [m; a], []).
Proof.
  intros Hm. unfold average_color, Np.array, Np.last_dim, Np.mean_axis01.
  rewrite Hm. cbn. change (Pos.to_nat 2) with 2%nat. cbn [seq map]. eauto.
Qed.

(** C1.  [average_color] on the 1x1 image of mode LA whose pixel is
    (100, 255) returns the colour (100.0, 255.0), the second component
    being the alpha band; it neither fails nor prints the warning. *)
Theorem average_color_LA_1x1 :
  average_color la_1x1 = (inr [F64.of_Z 100; F64.of_Z 255], []).
Proof. reflexivity. Qed.

Example average_color_RGBA_1x1 :
  average_color rgba_1x1
  = (inl (AssertionError "Image must be RGB"), [Print WarningIgnoringAlpha]).
Proof. reflexivity. Qed.

(** ** binary64: which operations yield a NaN *)

Lemma signed_not_nan (s : bool) (x : F64.t) : signed s x -> F64.isnan x = false.
Proof. destruct x; simpl; intros H; now try reflexivity. Qed.

Lemma iter_pos_inv {A} (P : A -> Prop) (f : A -> A) :
  (forall a, P a -> P (f a)) -> forall n a, P a -> P (iter_pos f n a).
Proof.
  intros Hf. induction n as [n IH|n IH|]; intros a Ha; simpl; auto.
Qed.

Lemma shr_1_nonneg (mrs : shr_record) : 0 <= shr_m mrs -> 0 <= shr_m (shr_1 mrs).
Proof.
  destruct mrs as [m r s]. simpl.
  destruct m as [|[p|p|]|[p|p|]]; simpl; lia.
Qed.

Lemma shr_nonneg (mrs : shr_record) (e n : Z) :
  0 <= shr_m mrs -> 0 <= shr_m (fst (shr mrs e n)).
Proof.
  intros H. destruct n; simpl; auto.
  apply iter_pos_inv; auto using shr_1_nonneg.
Qed.

Lemma shr_fexp_nonneg (m e : Z) (l : location) :
  0 <= m -> 0 <= shr_m (fst (shr_fexp F64.prec F64.emax m e l)).
Proof.
  intros H. unfold shr_fexp. apply shr_nonneg.
  destruct l as [|[]]; simpl; assumption.
Qed.

Lemma round_nearest_even_nonneg (m : Z) (l : location) :
  0 <= m -> 0 <= round_nearest_even m l.
Proof.
  intros H. destruct l as [|[]]; simpl; try assumption; [|lia].
  destruct (Z.even m); lia.
Qed.

(** Rounding a mantissa that is not negative never yields a NaN, and keeps
    the sign it is given. *)
Lemma binary_round_aux_signed (s : bool) (m e : Z) (l : location) :
  0 <= m -> signed s (binary_round_aux F64.prec F64.emax s m e l).
Proof.
  intros H. unfold binary_round_aux.
  pose proof (shr_fexp_nonneg m e l H) as H1.
  destruct (shr_fexp F64.prec F64.emax m e l) as [mrs' e']. simpl in H1.
  pose proof (shr_fexp_nonneg _ e' loc_Exact
                (round_nearest_even_nonneg _ (loc_of_shr_record mrs') H1)) as H2.
  destruct (shr_fexp F64.prec F64.emax _ e' loc_Exact) as [mrs'' e'']. simpl in H2.
  destruct (shr_m mrs'') as [|p|p]; [exact eq_refl| |lia].
  destruct (e'' <=? F64.emax - F64.prec); exact eq_refl.
Qed.

Lemma binary_round_signed (s : bool) (m : positive) (e : Z) :
  signed s (binary_round F64.prec F64.emax s m e).
Proof.
  unfold binary_round. destruct (shl_align _ _ _) as [mz ez].
  apply binary_round_aux_signed. lia.
Qed.

Lemma binary_normalize_not_nan (m e : Z) :
  F64.isnan (binary_normalize F64.prec F64.emax m e false) = false.
Proof.
  destruct m; simpl; [reflexivity| |]; eapply signed_not_nan, binary_round_signed.
Qed.

Lemma sub_finite (x y : F64.t) :
  F64.is_finite x = true -> F64.is_finite y = true -> F64.isnan (F64.sub x y) = false.
Proof.
  destruct x as [sx|sx| |sx mx ex], y as [sy|sy| |sy my ey]; simpl;
    try discriminate; intros _ _.
  - destruct sx, sy; reflexivity.
  - reflexivity.
  - reflexivity.
  - apply binary_normalize_not_nan.
Qed.

Lemma square_signed (x : F64.t) : F64.isnan x = false -> signed false (F64.mul x x).
Proof.
  destruct x as [s|s| |s m e]; simpl; try discriminate; intros _;
    try (now destruct s).
  rewrite xorb_nilpotent. apply binary_round_aux_signed. lia.
Qed.

Lemma add_signed (x y : F64.t) :
  signed false x -> signed false y -> signed false (F64.add x y).
Proof.
  destruct x as [sx|sx| |sx mx ex], y as [sy|sy| |sy my ey]; simpl;
    try contradiction; intros -> ->; simpl; try reflexivity.
  unfold cond_Zopp. cbn [Z.add]. apply binary_round_signed.
Qed.

Lemma sqrt_signed (x : F64.t) : signed false x -> F64.isnan (F64.sqrt x) = false.
Proof.
  destruct x as [s|s| |s m e]; simpl; try contradiction; intros ->; try reflexivity.
  unfold SFsqrt_core_binary.
  set (m' := match _ - _ with Z0 => _ | Zpos _ => _ | Zneg _ => _ end).
  assert (Hm' : 0 <= m').
  { subst m'. destruct (_ - _); try lia. apply Z.shiftl_nonneg. lia. }
  pose proof (Z.sqrtrem_spec m' Hm') as Hs.
  destruct (Z.sqrtrem m') as [q r].
  eapply signed_not_nan, binary_round_aux_signed. lia.
Qed.

Lemma sum_row_signed (r : color) :
  Forall (signed false) r -> signed false (Np.sum_row r).
Proof.
  unfold Np.sum_row. assert (H0 : signed false F64.zero) by reflexivity.
  revert H0. generalize F64.zero. induction r as [|x r IH]; intros acc Hacc Hr.
  - exact Hacc.
  - inversion Hr; subst. simpl. apply IH; [apply add_signed|]; assumption.
Qed.

(** ** binary64: the order of the numbers that are not NaN *)

Ltac order_cases :=
  repeat match goal with
    | |- context [Z.compare ?a ?b] => destruct (Z.compare_spec a b)
    | H : context [Z.compare ?a ?b] |- _ => destruct (Z.compare_spec a b)
    | |- context [Pos.compare_cont Eq ?a ?b] =>
        change (Pos.compare_cont Eq a b) with (Pos.compare a b);
        destruct (Pos.compare_spec a b)
    | H : context [Pos.compare_cont Eq ?a ?b] |- _ =>
        change (Pos.compare_cont Eq a b) with (Pos.compare a b) in H;
        destruct (Pos.compare_spec a b)
    end;
  simpl in *; try reflexivity; try discriminate; try lia.

Lemma leb_refl (x : F64.t) : F64.isnan x = false -> F64.leb x x = true.
Proof.
  destruct x as [s|s| |s m e]; simpl; try discriminate; intros _;
    unfold F64.leb, SFleb; simpl; try (now destruct s).
  destruct s; order_cases.
Qed.

(** [not (x >= y)] is [x < y] when neither is a NaN. *)
Lemma not_geb_ltb (x y : F64.t) :
  F64.isnan x = false -> F64.isnan y = false ->
  F64.geb x y = false -> F64.ltb x y = true.
Proof.
  unfold F64.geb, F64.ltb, SFleb, SFltb.
  destruct x as [sx|sx| |sx mx ex], y as [sy|sy| |sy my ey]; simpl;
    try discriminate; intros _ _;
    try (destruct sx); try (destruct sy); simpl; try discriminate; try reflexivity;
    order_cases.
Qed.

Lemma ltb_leb (x y : F64.t) : F64.ltb x y = true -> F64.leb x y = true.
Proof.
  unfold F64.leb, F64.ltb, SFleb, SFltb.
  destruct (SFcompare x y) as [[]|]; simpl; try discriminate; reflexivity.
Qed.

Lemma ltb_not_leb (x y : F64.t) : F64.ltb x y = true -> F64.leb y x = false.
Proof.
  unfold F64.leb, F64.ltb, SFleb, SFltb.
  destruct x as [sx|sx| |sx mx ex], y as [sy|sy| |sy my ey]; simpl;
    try discriminate; try reflexivity;
    try (destruct sx); try (destruct sy); simpl; try discriminate; try reflexivity;
    order_cases.
Qed.

Lemma ltb_leb_trans (x y z : F64.t) :
  F64.ltb x y = true -> F64.leb y z = true -> F64.ltb x z = true.
Proof.
  unfold F64.leb, F64.ltb, SFleb, SFltb.
  destruct x as [sx|sx| |sx mx ex], y as [sy|sy| |sy my ey], z as [sz|sz| |sz mz ez];
    simpl; try discriminate; try reflexivity;
    try (destruct sx); try (destruct sy); try (destruct sz);
    simpl; try discriminate; try reflexivity; order_cases.
Qed.

Lemma ltb_trans (x y z : F64.t) :
  F64.ltb x y = true -> F64.ltb y z = true -> F64.ltb x z = true.
Proof. intros H1 H2. eapply ltb_leb_trans; eauto using ltb_leb. Qed.

(** ** [np.argmin] *)

Lemma argmin_from_spec (d : list F64.t) :
  forall (i bi : nat) (best : F64.t),
    Forall (fun x => F64.isnan x = false) d -> F64.isnan best = false ->
    (Np.argmin_from d i bi best = bi
     /\ forall y, In y d -> F64.leb best y = true)
    \/
    (exists k x,
        Np.argmin_from d i bi best = (i + k)%nat
        /\ nth_error d k = Some x
        /\ F64.ltb x best = true
        /\ forall j y, nth_error d j = Some y ->
             F64.leb x y = true /\ ((j < k)%nat -> F64.ltb x y = true)).
Proof.
  induction d as [|x d IH]; intros i bi best Hd Hbest.
  - left. split; [reflexivity|]. intros y [].
  - inversion Hd as [|? ? Hx Hd']; subst. cbn [Np.argmin_from].
    destruct (F64.geb x best) eqn:G.
    + destruct (IH (S i) bi best Hd' Hbest)
        as [[-> Hall]|(k & x' & -> & Hk & Hlt & Hmin)].
      * left. split; [reflexivity|]. intros y [<-|Hin]; [exact G|auto].
      * right. exists (S k), x'. repeat split.
        -- lia.
        -- exact Hk.
        -- exact Hlt.
        -- destruct j as [|j]; cbn [nth_error] in H.
           ++ injection H as <-. eapply ltb_leb, ltb_leb_trans; [exact Hlt|exact G].
           ++ now apply (Hmin j y).
        -- destruct j as [|j]; cbn [nth_error] in H; intros Hj.
           ++ injection H as <-. eapply ltb_leb_trans; [exact Hlt|exact G].
           ++ apply (Hmin j y H). lia.
    + rewrite Hx. pose proof (not_geb_ltb x best Hx Hbest G) as Hxb.
      destruct (IH (S i) i x Hd' Hx)
        as [[-> Hall]|(k & x' & -> & Hk & Hlt & Hmin)].
      * right. exists O, x. repeat split.
        -- lia.
        -- exact Hxb.
        -- destruct j as [|j]; cbn [nth_error] in H.
           ++ injection H as <-. now apply leb_refl.
           ++ apply Hall. eapply nth_error_In; eauto.
        -- lia.
      * right. exists (S k), x'. repeat split.
        -- lia.
        -- exact Hk.
        -- eapply ltb_trans; eauto.
        -- destruct j as [|j]; cbn [nth_error] in H.
           ++ injection H as <-. now apply ltb_leb.
           ++ now apply (Hmin j y).
        -- destruct j as [|j]; cbn [nth_error] in H; intros Hj.
           ++ now injection H as <-.
           ++ apply (Hmin j y H). lia.
Qed.

(** On numbers none of which is a NaN, [np.argmin] returns the first
    position of the least one. *)
Lemma argmin_spec (d : list F64.t) :
  d <> [] -> Forall (fun x => F64.isnan x = false) d ->
  exists i x,
    Np.argmin d = inr i /\ nth_error d i = Some x
    /\ forall j y, nth_error d j = Some y ->
         F64.leb x y = true /\ ((j < i)%nat -> F64.ltb x y = true).
Proof.
  destruct d as [|x d]; [congruence|]. intros _ Hd.
  inversion Hd as [|? ? Hx Hd']; subst. cbn [Np.argmin]. rewrite Hx.
  destruct (argmin_from_spec d 1 0 x Hd' Hx)
    as [[-> Hall]|(k & x' & -> & Hk & Hlt & Hmin)].
  - exists O, x. repeat split.
    + destruct j as [|j]; cbn [nth_error] in H.
      * injection H as <-. now apply leb_refl.
      * apply Hall. eapply nth_error_In; eauto.
    + lia.
  - exists (S k), x'. repeat split.
    + exact Hk.
    + destruct j as [|j]; cbn [nth_error] in H.
      * injection H as <-. now apply ltb_leb.
      * now apply (Hmin j y).
    + destruct j as [|j]; cbn [nth_error] in H; intros Hj.
      * now injection H as <-.
      * apply (Hmin j y H). lia.
Qed.

(** ** [closest_image] *)

Lemma distance_rgb (target_color tile_color : color) :
  length tile_color = length target_color ->
  distance target_color tile_color = inr (euclidean target_color tile_color).
Proof.
  intros Hlen. unfold distance, Np.broadcast_sub, euclidean, squared_distance.
  rewrite Hlen, Nat.eqb_refl. now rewrite map_map.
Qed.

Lemma euclidean_not_nan (target_color tile_color : color) :
  forallb F64.is_finite target_color = true ->
  forallb F64.is_finite tile_color = true ->
  F64.isnan (euclidean target_color tile_color) = false.
Proof.
  intros Ht Hc. unfold euclidean, squared_distance.
  apply sqrt_signed, sum_row_signed.
  apply Forall_forall. intros s Hs. apply in_map_iff in Hs.
  destruct Hs as ([x y] & <- & Hin). cbn [fst snd].
  apply square_signed, sub_finite.
  - apply in_combine_l in Hin. rewrite forallb_forall in Hc. auto.
  - apply in_combine_r in Hin. rewrite forallb_forall in Ht. auto.
Qed.

Lemma rgb_color_inv (c : color) :
  rgb_color c = true -> length c = 3%nat /\ forallb F64.is_finite c = true.
Proof.
  unfold rgb_color. intros H. apply andb_true_iff in H as [H1 H2].
  now apply Nat.eqb_eq in H1.
Qed.

Lemma distances_rgb (tile_colors : list color) (target_color : color) :
  forallb rgb_color tile_colors = true -> rgb_color target_color = true ->
  distances tile_colors target_color = inr (map (euclidean target_color) tile_colors).
Proof.
  intros Hcs Ht. apply rgb_color_inv in Ht as [Ht _]. unfold distances.
  induction tile_colors as [|c cs IH]; [reflexivity|].
  cbn [forallb] in Hcs. apply andb_true_iff in Hcs as [Hc Hcs].
  apply rgb_color_inv in Hc as [Hc _].
  cbn [traverse map]. rewrite distance_rgb by congruence. now rewrite IH.
Qed.

(** C6.  For every non-empty array of tile colours and every target
    colour, each of three finite components, [closest_image] returns the
    index of a tile colour whose distance to the target colour as the code
    computes it in binary64 ([euclidean]: the subtractions, the squares,
    the sum from left to right and the square root, each rounded to
    nearest) is minimal, and that index is the smallest one at that
    computed distance: every tile colour whose computed distance is as
    small comes at it or later. *)
Theorem closest_image_first_nearest (tile_colors : list color) (target_color : color) :
  tile_colors <> [] ->
  forallb rgb_color tile_colors = true ->
  rgb_color target_color = true ->
  exists (i : nat) (ci : color),
    closest_image tile_colors target_color = inr i
    /\ nth_error tile_colors i = Some ci
    /\ forall (j : nat) (cj : color),
         nth_error tile_colors j = Some cj ->
         F64.leb (euclidean target_color ci) (euclidean target_color cj) = true
         /\ (F64.leb (euclidean target_color cj) (euclidean target_color ci) = true ->
             (i <= j)%nat).
Proof.
  intros Hne Hcs Ht.
  pose proof (distances_rgb tile_colors target_color Hcs Ht) as Hd.
  assert (Hnan : Forall (fun x => F64.isnan x = false)
                        (map (euclidean target_color) tile_colors)).
  { apply Forall_forall. intros x Hx. apply in_map_iff in Hx.
    destruct Hx as (c & <- & Hin). rewrite forallb_forall in Hcs.
    apply euclidean_not_nan.
    - now apply rgb_color_inv in Ht.
    - now apply rgb_color_inv, Hcs. }
  assert (Hne' : map (euclidean target_color) tile_colors <> [])
    by (destruct tile_colors; [congruence|discriminate]).
  destruct (argmin_spec _ Hne' Hnan) as (i & x & Harg & Hi & Hmin).
  rewrite nth_error_map in Hi.
  destruct (nth_error tile_colors i) as [ci|] eqn:Hci; [|discriminate].
  injection Hi as <-.
  exists i, ci. split; [|split; [exact Hci|]].
  - unfold closest_image. destruct tile_colors; [congruence|]. now rewrite Hd.
  - intros j cj Hj.
    assert (Hj' : nth_error (map (euclidean target_color) tile_colors) j
                  = Some (euclidean target_color cj))
      by (now rewrite nth_error_map, Hj).
    destruct (Hmin j _ Hj') as [Hle Hlt]. split; [exact Hle|].
    intros Hge. destruct (Nat.lt_ge_cases j i) as [Hlt'|]; [|assumption].
    apply Hlt, ltb_not_leb in Hlt'. congruence.
Qed.

Lemma closest_image_first_nearest_witness :
  exists (i : nat) (ci : color),
    closest_image [white; grey; grey; black] [F64.of_Z 100; F64.of_Z 100; F64.of_Z 100] = inr i
    /\ nth_error [white; grey; grey; black] i = Some ci
    /\ forall (j : nat) (cj : color),
         nth_error [white; grey; grey; black] j = Some cj ->
         F64.leb (euclidean [F64.of_Z 100; F64.of_Z 100; F64.of_Z 100] ci)
                 (euclidean [F64.of_Z 100; F64.of_Z 100; F64.of_Z 100] cj) = true
         /\ (F64.leb (euclidean [F64.of_Z 100; F64.of_Z 100; F64.of_Z 100] cj)
                     (euclidean [F64.of_Z 100; F64.of_Z 100; F64.of_Z 100] ci) = true ->
             (i <= j)%nat).
Proof.
  apply (closest_image_first_nearest [white; grey; grey; black]
           [F64.of_Z 100; F64.of_Z 100; F64.of_Z 100]);
    [discriminate|reflexivity|reflexivity].
Defined.

(** C6, the claim as it is stated fails, because the distances that are
    compared are rounded.  The mean colours of the tiles [thirds_low] and
    [thirds_high], (1/3, 1/3, 2) and (2, 1/3, 1/3), are at the same exact
    Euclidean distance of black; the sums of their squares are rounded in
    two orders and differ in the last place, and [closest_image] returns
    index 1, which is not the smallest index at the minimum distance.  And
    of the colours [nearly_unit] and [unit_red] the second is nearer to
    black, the square roots round to one number, and [closest_image]
    returns index 0, which is not the index of a nearest colour. *)
Lemma closest_image_not_exact_nearest :
  (average_color thirds_low = (inr third_third_two, [])
   /\ average_color thirds_high = (inr two_third_third, [])
   /\ forallb rgb_color [third_third_two; two_third_third; black] = true
   /\ Exact.equidistant black third_third_two two_third_third
   /\ closest_image [third_third_two; two_third_third] black = inr 1%nat)
  /\ (forallb rgb_color [nearly_unit; unit_red] = true
      /\ Exact.nearer black unit_red nearly_unit
      /\ closest_image [nearly_unit; unit_red] black = inr 0%nat).
Proof. repeat apply conj; vm_compute; reflexivity. Qed.

(** Of the two grey tiles, both nearest to the colour (100, 100, 100), the
    first one is selected. *)
Example closest_image_tie :
  closest_image [white; grey; grey; black] [F64.of_Z 100; F64.of_Z 100; F64.of_Z 100]
  = inr 1%nat.
Proof. reflexivity. Qed.

(** The distances that are compared are the rounded ones: the two colours
    below have distinct squared distances to black, both exact, and the
    square roots round to one number, so that the first colour is selected
    although the second is nearer before rounding. *)
Example closest_image_rounding :
  closest_image [nearly_unit; unit_red] black = inr 0%nat
  /\ F64.ltb (squared_distance black unit_red) (squared_distance black nearly_unit) = true
  /\ euclidean black nearly_unit = euclidean black unit_red.
Proof. repeat split. Qed.

(** A NaN among the distances is selected whatever the other distances. *)
Example closest_image_nan :
  closest_image [[S754_nan; F64.zero; F64.zero]; black] black = inr 0%nat.
Proof. reflexivity. Qed.

(** ** The monad *)

Lemma for_fold_ext_in {A S} (xs : list A) (f g : S -> A -> M S) :
  (forall s x, In x xs -> f s x = g s x) ->
  forall s, for_fold xs f s = for_fold xs g s.
Proof.
  induction xs as [|x xs IH]; intros H s; [reflexivity|].
  cbn [for_fold]. rewrite (H s x) by now left.
  destruct (g s x) as [[e|s'] out]; [reflexivity|].
  cbn [bind]. rewrite IH; [reflexivity|]. intros; apply H; now right.
Qed.

Lemma map_snd_combine {A B} (l1 : list A) (l2 : list B) :
  length l1 = length l2 -> map snd (combine l1 l2) = l2.
Proof.
  revert l2. induction l1 as [|a l1 IH]; intros [|b l2] H; try discriminate;
    [reflexivity|]. cbn. f_equal. apply IH. now injection H.
Qed.

Lemma map_snd_enumerate {A} (xs : list A) : map snd (enumerate xs) = xs.
Proof.
  unfold enumerate. apply map_snd_combine. rewrite range_length. lia.
Qed.

(** ** The loop over the tile directory *)

Lemma average_color_cases (im : PIL.Image) :
  (exists c, average_color im = (inr c, []))
  \/ average_color im
     = (inl (AssertionError "Image must be RGB"), [Print WarningIgnoringAlpha]).
Proof.
  unfold average_color.
  destruct (Np.last_dim _ =? 4); [right|left; eexists]; reflexivity.
Qed.

Lemma average_color_profile (im : PIL.Image) :
  match profile im with
  | Some c => average_color im = (inr c, [])
  | None => average_color im
            = (inl (AssertionError "Image must be RGB"), [Print WarningIgnoringAlpha])
  end.
Proof.
  unfold profile. destruct (average_color_cases im) as [[c H]|H]; now rewrite H.
Qed.

Lemma survivors_cons_some (im : PIL.Image) (c : color) (ims : list PIL.Image) :
  profile im = Some c ->
  filter profiled (im :: ims) = im :: filter profiled ims
  /\ colors_of (im :: ims) = c :: colors_of ims.
Proof.
  intros Hp. unfold colors_of. cbn [filter flat_map]. unfold profiled at 1.
  now rewrite Hp.
Qed.

Lemma survivors_cons_none (im : PIL.Image) (ims : list PIL.Image) :
  profile im = None ->
  filter profiled (im :: ims) = filter profiled ims
  /\ colors_of (im :: ims) = colors_of ims.
Proof.
  intros Hp. unfold colors_of. cbn [filter flat_map]. unfold profiled at 1.
  now rewrite Hp.
Qed.

Section Loading.

Variable Image_open : string -> exn + PIL.Image.
Variable Image_resize : PIL.Image -> Z * Z -> exn + PIL.Image.
Variable tile_image_dir : string.
Variables cell_width cell_height : Z.

Local Abbreviation prepare' :=
  (prepare Image_open Image_resize tile_image_dir cell_width cell_height).
Local Abbreviation load_tile' :=
  (load_tile Image_open Image_resize tile_image_dir cell_width cell_height).

(** One iteration: an entry that cannot be opened or resized ends the
    loop with its exception; an entry whose colour cannot be computed
    leaves both lists as they are; any other entry extends both. *)
Lemma load_tile_spec (tile_images : list PIL.Image) (tile_colors : list color)
    (idx : Z) (file_name : string) :
  match prepare' file_name with
  | inl e => load_tile' (tile_images, tile_colors) (idx, file_name) = (inl e, [])
  | inr im =>
      exists out,
        forallb loading_event out = true
        /\ load_tile' (tile_images, tile_colors) (idx, file_name)
           = (inr match profile im with
                  | Some c => (tile_images ++ [im], tile_colors ++ [c])
                  | None => (tile_images, tile_colors)
                  end, out)
  end.
Proof.
  unfold prepare, load_tile, resize_image, lift.
  destruct (Image_open _) as [e|tile]; [reflexivity|].
  cbn [bind app]. destruct (Image_resize tile _) as [e|im]; [reflexivity|].
  cbn [bind app].
  pose proof (average_color_profile im) as Hp.
  destruct (profile im) as [c|]; rewrite Hp; cbn;
    destruct (idx mod 10 =? 0); cbn; eexists; (split; [|reflexivity]); reflexivity.
Qed.

Lemma load_loop_spec (entries : list (Z * string)) :
  forall (tile_images : list PIL.Image) (tile_colors : list color),
  exists out,
    forallb loading_event out = true
    /\ for_fold entries load_tile' (tile_images, tile_colors)
       = (match traverse prepare' (map snd entries) with
          | inr resized => inr (tile_images ++ filter profiled resized,
                                tile_colors ++ colors_of resized)
          | inl e => inl e
          end, out).
Proof.
  induction entries as [|[idx f] entries IH]; intros tile_images tile_colors.
  - exists []. cbn. now rewrite !app_nil_r.
  - cbn [for_fold map snd traverse].
    pose proof (load_tile_spec tile_images tile_colors idx f) as H1.
    destruct (prepare' f) as [e|im].
    + rewrite H1. exists []. split; reflexivity.
    + destruct H1 as (out1 & Hout1 & ->).
      destruct (profile im) as [c|] eqn:Hp.
      * destruct (IH (tile_images ++ [im]) (tile_colors ++ [c]))
          as (out2 & Hout2 & Heq).
        exists (out1 ++ out2). split; [now rewrite forallb_app, Hout1, Hout2|].
        cbn [bind]. rewrite Heq.
        destruct (traverse prepare' (map snd entries)) as [e|l]; [reflexivity|].
        destruct (survivors_cons_some im c l Hp) as [-> ->].
        now rewrite <- !app_assoc.
      * destruct (IH tile_images tile_colors) as (out2 & Hout2 & Heq).
        exists (out1 ++ out2). split; [now rewrite forallb_app, Hout1, Hout2|].
        cbn [bind]. rewrite Heq.
        destruct (traverse prepare' (map snd entries)) as [e|l]; [reflexivity|].
        now destruct (survivors_cons_none im l Hp) as [-> ->].
Qed.

Lemma colors_of_profile (ims : list PIL.Image) :
  Forall2 (fun im c => profile im = Some c) (filter profiled ims) (colors_of ims).
Proof.
  induction ims as [|im ims IH]; [constructor|].
  unfold profiled, colors_of in *. cbn [filter flat_map].
  destruct (profile im) as [c|] eqn:Hp; [|exact IH].
  cbn [app]. now constructor.
Qed.

End Loading.

(** C2.  The loop over the tile directory skips an entry, leaving it out
    of both lists, and goes on with the next one when the entry was opened
    and resized and [average_color] raised on it; when an entry cannot be
    opened or resized the loop ends with that exception.  So, when every
    entry is opened and resized, the loop returns the tiles that
    [average_color] accepts, with their colours. *)
Theorem load_tiles_outcome (Image_open : string -> exn + PIL.Image)
    (Image_resize : PIL.Image -> Z * Z -> exn + PIL.Image)
    (tile_image_dir : string) (cell_width cell_height : Z) (files : list string) :
  exists out,
    load_tiles Image_open Image_resize tile_image_dir cell_width cell_height files
    = (match traverse (prepare Image_open Image_resize tile_image_dir
                         cell_width cell_height) files with
       | inr resized => inr (filter profiled resized, colors_of resized)
       | inl e => inl e
       end, out).
Proof.
  destruct (load_loop_spec Image_open Image_resize tile_image_dir
              cell_width cell_height (enumerate files) [] [])
    as (out & _ & H).
  exists out. unfold load_tiles. rewrite H, map_snd_enumerate. reflexivity.
Qed.

(** C2, the claim as it is stated fails: in the directory that lists
    [notes.txt], which is no image, before [red.png], the loop does not
    skip [notes.txt]; it ends with the error of the decoder, [red.png] is
    never processed, and the run of [create_mosaic] ends with that error
    right after it announced the loading of the tiles. *)
Lemma load_tiles_decode_failure_aborts :
  load_tiles (fs_open small_fs) resize_nearest "mixed" 1 1
    ["notes.txt"; "red.png"]%string
  = (inl (OSError "cannot identify image file"), [])
  /\ ~ skips_every_failure (fs_open small_fs) resize_nearest "mixed" 1 1
         ["notes.txt"; "red.png"]%string
  /\ create_mosaic (fs_open small_fs) (fs_listdir small_fs) resize_nearest
       "target.png" "mixed" (2, 2)
     = (inl (OSError "cannot identify image file"),
        [ Print LoadingTarget; Print (TargetLoaded 2 2); Print (GridInfo 2 2 1 1);
          Print LoadingTiles ]).
Proof.
  assert (H : load_tiles (fs_open small_fs) resize_nearest "mixed" 1 1
                ["notes.txt"; "red.png"]%string
              = (inl (OSError "cannot identify image file"), []))
    by reflexivity.
  split; [exact H|]. split; [|vm_compute; reflexivity].
  intros (out & Hskip). rewrite H in Hskip. discriminate.
Qed.

(** In the directory of the sample that lists an RGBA tile between two RGB
    tiles, that tile is skipped and the two others are kept. *)
Example load_tiles_skips_alpha :
  exists red blue out,
    load_tiles (fs_open small_fs) resize_nearest "tiles" 1 1
      ["red.png"; "clear.png"; "blue.png"]%string
    = (inr ([red; blue],
            [[F64.of_Z 255; F64.of_Z 0; F64.of_Z 0];
             [F64.of_Z 0; F64.of_Z 0; F64.of_Z 255]]), out)
    /\ In (Print (ErrorConverting "clear.png" (AssertionError "Image must be RGB"))) out.
Proof.
  do 3 eexists. split; [vm_compute; reflexivity|]. cbn. auto.
Qed.

(** C8.  After any number [k] of iterations of the loop over the tile
    directory, hence also at its end, the list of the tile images and the
    list of the tile colours have one length, the colour at each position
    is the one that [average_color] returns on the image at that position,
    and the images are those of the [k] first entries, resized, that
    [average_color] accepts: an entry on which it raises is in neither
    list. *)
Theorem tile_lists_co_indexed (Image_open : string -> exn + PIL.Image)
    (Image_resize : PIL.Image -> Z * Z -> exn + PIL.Image)
    (tile_image_dir : string) (cell_width cell_height : Z) (files : list string)
    (k : nat) (tile_images : list PIL.Image) (tile_colors : list color)
    (out : list event) :
  loop_state Image_open Image_resize tile_image_dir cell_width cell_height files k
  = (inr (tile_images, tile_colors), out) ->
  length tile_images = length tile_colors
  /\ Forall2 (fun im c => average_color im = (inr c, [])) tile_images tile_colors
  /\ exists resized,
       traverse (prepare Image_open Image_resize tile_image_dir
                   cell_width cell_height) (firstn k files) = inr resized
       /\ tile_images = filter profiled resized.
Proof.
  intros H. unfold loop_state in H.
  destruct (load_loop_spec Image_open Image_resize tile_image_dir
              cell_width cell_height (firstn k (enumerate files)) [] [])
    as (out' & _ & H').
  rewrite H' in H. rewrite <- firstn_map, map_snd_enumerate in H.
  destruct (traverse _ (firstn k files)) as [e|resized]; [discriminate|].
  injection H as <- <- _. cbn [app].
  assert (HF : Forall2 (fun im c => average_color im = (inr c, []))
                       (filter profiled resized) (colors_of resized)).
  { eapply Forall2_impl; [|apply colors_of_profile].
    intros im c Hp. pose proof (average_color_profile im) as Ha.
    now rewrite Hp in Ha. }
  split; [eapply Forall2_length; exact HF|].
  split; [exact HF|]. now exists resized.
Qed.

Lemma loop_state_end (Image_open : string -> exn + PIL.Image)
    (Image_resize : PIL.Image -> Z * Z -> exn + PIL.Image)
    (tile_image_dir : string) (cell_width cell_height : Z) (files : list string) :
  loop_state Image_open Image_resize tile_image_dir cell_width cell_height files
    (length files)
  = load_tiles Image_open Image_resize tile_image_dir cell_width cell_height files.
Proof.
  unfold loop_state, load_tiles. rewrite firstn_all2; [reflexivity|].
  unfold enumerate. rewrite length_combine, range_length. lia.
Qed.

Lemma tile_lists_co_indexed_witness :
  exists tile_images tile_colors out,
    loop_state (fs_open small_fs) resize_nearest "tiles" 1 1
      ["red.png"; "clear.png"; "blue.png"]%string 2
    = (inr (tile_images, tile_colors), out)
    /\ (length tile_images = length tile_colors
        /\ Forall2 (fun im c => average_color im = (inr c, [])) tile_images tile_colors
        /\ exists resized,
             traverse (prepare (fs_open small_fs) resize_nearest "tiles" 1 1)
               (firstn 2 ["red.png"; "clear.png"; "blue.png"]%string) = inr resized
             /\ tile_images = filter profiled resized).
Proof.
  eexists _, _, _. split; [vm_compute; reflexivity|].
  eapply (tile_lists_co_indexed (fs_open small_fs) resize_nearest "tiles" 1 1 _ 2).
  vm_compute; reflexivity.
Defined.

(** ** The stages of [create_mosaic] *)

Lemma create_mosaic_stages (Image_open : string -> exn + PIL.Image)
    (os_listdir : string -> exn + list string)
    (Image_resize : PIL.Image -> Z * Z -> exn + PIL.Image)
    (target_image_path tile_image_dir : string) (grid_size : Z * Z) :
  create_mosaic Image_open os_listdir Image_resize
    target_image_path tile_image_dir grid_size
  = match Image_open target_image_path with
    | inl e => (inl e, [Print LoadingTarget])
    | inr target_image =>
        let cell_width := PIL.width target_image / fst grid_size in
        let cell_height := PIL.height target_image / snd grid_size in
        if (fst grid_size =? 0) || (snd grid_size =? 0)
        then (inl ZeroDivisionError, firstn 2 (preamble target_image grid_size))
        else
          match os_listdir tile_image_dir with
          | inl e => (inl e, preamble target_image grid_size)
          | inr files =>
              match load_tiles Image_open Image_resize tile_image_dir
                      cell_width cell_height files with
              | (inl e, out) => (inl e, preamble target_image grid_size ++ out)
              | (inr st, out) =>
                  let (r, out') := after_loading target_image grid_size
                                     cell_width cell_height st in
                  (r, preamble target_image grid_size ++ out ++ out')
              end
          end
    end.
Proof.
  unfold create_mosaic, preamble, PIL.width, PIL.height, lift, print, emit, floordiv.
  destruct (Image_open target_image_path) as [e|target_image]; [reflexivity|].
  cbn [bind app].
  destruct (PIL.size target_image) as [w h] eqn:Hsize. cbn [fst snd bind app].
  destruct (fst grid_size =? 0); [reflexivity|].
  cbn [orb ret bind app].
  destruct (snd grid_size =? 0); [reflexivity|].
  cbn [ret bind app].
  destruct (os_listdir tile_image_dir) as [e|files]; [reflexivity|].
  cbn [bind app].
  destruct (load_tiles _ _ _ _ _ files) as [[e|[tile_images tile_colors]] out];
    [reflexivity|].
  unfold after_loading, print, emit, lift. rewrite Hsize.
  cbn [bind app].
  destruct (print_colors tile_colors) as [[e|[]] out1]; [reflexivity|].
  cbn [bind app].
  destruct (Np.array2 tile_colors) as [e|tile_colors']; [reflexivity|].
  cbn [bind app].
  destruct (build _ _ _ _ _ _ _) as [[e|mosaic] out2]; [reflexivity|].
  cbn [bind ret app]. reflexivity.
Qed.

(** ** The loop that prints a thousand colours *)

Lemma skipn_nth_error {A} (l : list A) :
  forall (a : nat) (x : A), nth_error l a = Some x -> skipn a l = x :: skipn (S a) l.
Proof.
  induction l as [|y l IH]; intros [|a] x H; try discriminate.
  - now injection H as ->.
  - cbn [nth_error] in H. cbn [skipn]. now apply IH.
Qed.

Lemma print_colors_from (tile_colors : list color) (n : nat) :
  forall a : nat,
    (a <= length tile_colors)%nat ->
    for_each (map Z.of_nat (seq a n))
      (fun i => c <- list_get tile_colors (Z.to_nat i) ;; print (ColorLine c))
    = if (a + n <=? length tile_colors)%nat
      then (inr tt, map (fun c => Print (ColorLine c)) (firstn n (skipn a tile_colors)))
      else (inl (IndexError "list index out of range"),
            map (fun c => Print (ColorLine c)) (skipn a tile_colors)).
Proof.
  unfold for_each. induction n as [|n IH]; intros a Ha.
  - cbn [seq map for_fold firstn].
    destruct (a + 0 <=? length tile_colors)%nat eqn:E; [reflexivity|].
    apply Nat.leb_gt in E. lia.
  - cbn [seq map for_fold]. rewrite Nat2Z.id. unfold list_get at 1.
    replace (a + S n)%nat with (S a + n)%nat by lia.
    destruct (nth_error tile_colors a) as [c|] eqn:Hc.
    + rewrite (skipn_nth_error _ _ _ Hc). cbn [bind ret print emit app].
      assert (Ha' : (S a <= length tile_colors)%nat).
      { apply Nat.le_succ_l, nth_error_Some. congruence. }
      rewrite (IH (S a) Ha').
      destruct (S a + n <=? length tile_colors)%nat; reflexivity.
    + apply nth_error_None in Hc.
      destruct (S a + n <=? length tile_colors)%nat eqn:E;
        [apply Nat.leb_le in E; lia|].
      rewrite skipn_all2 by lia. reflexivity.
Qed.

Lemma print_colors_spec (tile_colors : list color) :
  print_colors tile_colors
  = if (1000 <=? length tile_colors)%nat
    then (inr tt, map (fun c => Print (ColorLine c)) (firstn 1000 tile_colors))
    else (inl (IndexError "list index out of range"),
          map (fun c => Print (ColorLine c)) tile_colors).
Proof.
  unfold print_colors, range. rewrite (print_colors_from tile_colors _ 0) by lia.
  change (0 + Z.to_nat 1000)%nat with (Z.to_nat 1000).
  replace (Z.to_nat 1000) with 1000%nat by lia. reflexivity.
Qed.

Lemma after_loading_short (target_image : PIL.Image) (grid_size : Z * Z)
    (cell_width cell_height : Z)
    (tile_images : list PIL.Image) (tile_colors : list color) :
  (length tile_colors < 1000)%nat ->
  after_loading target_image grid_size cell_width cell_height (tile_images, tile_colors)
  = (inl (IndexError "list index out of range"),
     Print (AllLoaded (length tile_images))
       :: map (fun c => Print (ColorLine c)) tile_colors).
Proof.
  intros Hlen. unfold after_loading. rewrite print_colors_spec.
  destruct (1000 <=? length tile_colors)%nat eqn:E;
    [apply Nat.leb_le in E; lia|reflexivity].
Qed.

Lemma no_assembly_in_loading (out : list event) :
  forallb loading_event out = true -> existsb assembly_event out = false.
Proof.
  induction out as [|ev out IH]; [reflexivity|]. cbn [forallb existsb].
  intros H. apply andb_true_iff in H as [H1 H2]. rewrite (IH H2).
  now destruct ev as [[]|].
Qed.

Lemma no_assembly_in_colors (cs : list color) :
  existsb assembly_event (map (fun c => Print (ColorLine c)) cs) = false.
Proof. induction cs as [|c cs IH]; [reflexivity|exact IH]. Qed.

Lemma no_assembly_in_preamble (target_image : PIL.Image) (grid_size : Z * Z) :
  existsb assembly_event (preamble target_image grid_size) = false.
Proof. reflexivity. Qed.

(** The run of [create_mosaic] when the loop over the tile directory ends,
    with fewer than a thousand colours. *)
Lemma create_mosaic_short (Image_open : string -> exn + PIL.Image)
    (os_listdir : string -> exn + list string)
    (Image_resize : PIL.Image -> Z * Z -> exn + PIL.Image)
    (target_image_path tile_image_dir : string) (grid_size : Z * Z)
    (target_image : PIL.Image) (files : list string)
    (tile_images : list PIL.Image) (tile_colors : list color) (out : list event) :
  Image_open target_image_path = inr target_image ->
  fst grid_size <> 0 -> snd grid_size <> 0 ->
  os_listdir tile_image_dir = inr files ->
  load_tiles Image_open Image_resize tile_image_dir
    (PIL.width target_image / fst grid_size)
    (PIL.height target_image / snd grid_size) files
  = (inr (tile_images, tile_colors), out) ->
  (length tile_colors < 1000)%nat ->
  create_mosaic Image_open os_listdir Image_resize
    target_image_path tile_image_dir grid_size
  = (inl (IndexError "list index out of range"),
     preamble target_image grid_size ++ out
       ++ Print (AllLoaded (length tile_images))
       :: map (fun c => Print (ColorLine c)) tile_colors).
Proof.
  intros Hopen Hc Hr Hdir Hload Hlen.
  rewrite create_mosaic_stages, Hopen. cbv zeta.
  apply Z.eqb_neq in Hc, Hr. rewrite Hc, Hr. cbn [orb].
  rewrite Hdir, Hload, after_loading_short by exact Hlen. reflexivity.
Qed.

(** C5.  In every run in which the loop over the tile directory ends with
    fewer than 1000 colours, [create_mosaic] raises the index error of
    line 67: it has printed the number of the tiles loaded and then the
    colours there are, and has taken no step of the assembly.  A run takes
    a step of the assembly, or returns a canvas, only when at least 1000
    tiles were loaded. *)
Theorem debug_loop_needs_1000_tiles (Image_open : string -> exn + PIL.Image)
    (os_listdir : string -> exn + list string)
    (Image_resize : PIL.Image -> Z * Z -> exn + PIL.Image)
    (target_image_path tile_image_dir : string) (grid_size : Z * Z)
    (target_image : PIL.Image) (files : list string)
    (tile_images : list PIL.Image) (tile_colors : list color) (out_l : list event) :
  Image_open target_image_path = inr target_image ->
  fst grid_size <> 0 -> snd grid_size <> 0 ->
  os_listdir tile_image_dir = inr files ->
  load_tiles Image_open Image_resize tile_image_dir
    (PIL.width target_image / fst grid_size)
    (PIL.height target_image / snd grid_size) files
  = (inr (tile_images, tile_colors), out_l) ->
  ((length tile_colors < 1000)%nat ->
   exists out,
     create_mosaic Image_open os_listdir Image_resize
       target_image_path tile_image_dir grid_size
     = (inl (IndexError "list index out of range"), out)
     /\ out = preamble target_image grid_size ++ out_l
               ++ Print (AllLoaded (length tile_images))
               :: map (fun c => Print (ColorLine c)) tile_colors
     /\ existsb assembly_event out = false)
  /\ (forall r out,
        create_mosaic Image_open os_listdir Image_resize
          target_image_path tile_image_dir grid_size = (r, out) ->
        existsb assembly_event out = true \/ (exists canvas, r = inr canvas) ->
        (1000 <= length tile_colors)%nat).
Proof.
  intros Hopen Hc Hr Hdir Hload.
  assert (Hshort : (length tile_colors < 1000)%nat ->
                   exists out,
                     create_mosaic Image_open os_listdir Image_resize
                       target_image_path tile_image_dir grid_size
                     = (inl (IndexError "list index out of range"), out)
                     /\ out = preamble target_image grid_size ++ out_l
                               ++ Print (AllLoaded (length tile_images))
                               :: map (fun c => Print (ColorLine c)) tile_colors
                     /\ existsb assembly_event out = false).
  { intros Hlen. eexists. split; [|split; [reflexivity|]].
    - eapply create_mosaic_short; eassumption.
    - rewrite !existsb_app. cbn [existsb assembly_event].
      rewrite no_assembly_in_preamble, no_assembly_in_colors.
      destruct (load_loop_spec Image_open Image_resize tile_image_dir
                  (PIL.width target_image / fst grid_size)
                  (PIL.height target_image / snd grid_size)
                  (enumerate files) [] []) as (out' & Hout' & Heq).
      unfold load_tiles in Hload. rewrite Heq in Hload.
      injection Hload as _ <-. now rewrite (no_assembly_in_loading _ Hout'). }
  split; [exact Hshort|].
  intros r out Hrun Hpast.
  destruct (Nat.lt_ge_cases (length tile_colors) 1000) as [Hlen|]; [|assumption].
  destruct (Hshort Hlen) as (out' & Hrun' & _ & Hno).
  rewrite Hrun in Hrun'. injection Hrun' as -> ->.
  destruct Hpast as [Hpast|[canvas Hcanvas]]; congruence.
Qed.

Lemma debug_loop_needs_1000_tiles_witness :
  exists (tile_images : list PIL.Image) (tile_colors : list color) out_l out,
    create_mosaic (fs_open small_fs) (fs_listdir small_fs) resize_nearest
      "target.png" "tiles" (2, 2)
    = (inl (IndexError "list index out of range"), out)
    /\ out = preamble target_2x2 (2, 2) ++ out_l
              ++ Print (AllLoaded (length tile_images))
              :: map (fun c => Print (ColorLine c)) tile_colors
    /\ existsb assembly_event out = false.
Proof.
  eexists _, _, _.
  eapply (proj1 (debug_loop_needs_1000_tiles (fs_open small_fs) (fs_listdir small_fs)
                   resize_nearest "target.png" "tiles" (2, 2) target_2x2
                   ["red.png"; "clear.png"; "blue.png"]%string _ _ _
                   eq_refl ltac:(discriminate) ltac:(discriminate) eq_refl
                   ltac:(vm_compute; reflexivity))).
  vm_compute. lia.
Defined.

(** The run of the sample: two of the three tiles are loaded, their
    colours are printed, and the third access of line 67 raises. *)
Example create_mosaic_small_run :
  create_mosaic (fs_open small_fs) (fs_listdir small_fs) resize_nearest
    "target.png" "tiles" (2, 2)
  = (inl (IndexError "list index out of range"),
     [ Print LoadingTarget; Print (TargetLoaded 2 2); Print (GridInfo 2 2 1 1);
       Print LoadingTiles; Print (Processed 1); Print WarningIgnoringAlpha;
       Print (ErrorConverting "clear.png" (AssertionError "Image must be RGB"));
       Print (AllLoaded 2);
       Print (ColorLine [F64.of_Z 255; F64.of_Z 0; F64.of_Z 0]);
       Print (ColorLine [F64.of_Z 0; F64.of_Z 0; F64.of_Z 255]) ]).
Proof. vm_compute. reflexivity. Qed.

(** ** The empty tile set *)




(** The run on the directory without entries. *)
Example create_mosaic_empty_directory :
  create_mosaic (fs_open small_fs) (fs_listdir small_fs) resize_nearest
    "target.png" "empty" (2, 2)
  = (inl (IndexError "list index out of range"),
     [ Print LoadingTarget; Print (TargetLoaded 2 2); Print (GridInfo 2 2 1 1);
       Print LoadingTiles; Print (AllLoaded 0) ]).
Proof. vm_compute. reflexivity. Qed.

(** ** A grid larger than the target *)


Lemma resize_nearest_resizes_to_size : resizes_to_size resize_nearest.
Proof.
  intros im [w h] im'. unfold resize_nearest.
  destruct ((w <? 1) || (h <? 1)); [discriminate|].
  intros H. now injection H as <-.
Qed.





(** ** The assembly of the canvas *)

Lemma for_fold_invariant {A S} (P : S -> Prop) (Q : event -> Prop)
    (xs : list A) (body : S -> A -> M S) :
  (forall s x r out, In x xs -> P s -> body s x = (r, out) ->
                     Forall Q out /\ (forall s', r = inr s' -> P s')) ->
  forall s r out, P s -> for_fold xs body s = (r, out) ->
                  Forall Q out /\ (forall s', r = inr s' -> P s').
Proof.
  induction xs as [|x xs IH]; intros Hbody s r out Hs Hrun.
  - cbn in Hrun. injection Hrun as <- <-. split; [constructor|].
    intros s' H. now injection H as <-.
  - cbn [for_fold] in Hrun.
    destruct (body s x) as [[e|s1] out1] eqn:Hx.
    + cbn in Hrun. injection Hrun as <- <-.
      apply (Hbody s x _ _ (or_introl eq_refl) Hs Hx).
    + destruct (Hbody s x _ _ (or_introl eq_refl) Hs Hx) as [Hq Hp].
      cbn [bind] in Hrun.
      destruct (for_fold xs body s1) as [r' out'] eqn:Hrest.
      injection Hrun as <- <-.
      destruct (IH (fun s0 x0 r0 out0 Hin => Hbody s0 x0 r0 out0 (or_intror Hin))
                   s1 r' out' (Hp s1 eq_refl) Hrest) as [Hq' Hp'].
      split; [apply Forall_app; now split|exact Hp'].
Qed.

Lemma inside_cell (tile : PIL.Image) (grid_size : Z * Z)
    (cell_width cell_height i j x y : Z) :
  PIL.size tile = (cell_width, cell_height) ->
  0 <= i < fst grid_size -> 0 <= j < snd grid_size ->
  PIL.inside tile (x - i * cell_width) (y - j * cell_height) = true ->
  grid_region grid_size cell_width cell_height x y.
Proof.
  intros Hsize Hi Hj Hin. unfold PIL.inside, PIL.width, PIL.height in Hin.
  rewrite Hsize in Hin. cbn [fst snd] in Hin.
  apply andb_true_iff in Hin as [Hin H4]. apply andb_true_iff in Hin as [Hin H3].
  apply andb_true_iff in Hin as [H1 H2].
  apply Z.leb_le in H1, H3. apply Z.ltb_lt in H2, H4.
  unfold grid_region. split; nia.
Qed.

Section Assembly.

Variable target_image : PIL.Image.
Variable grid_size : Z * Z.
Variables cell_width cell_height : Z.
Variable tile_images : list PIL.Image.
Variable tile_colors : list color.
Variable canvas0 : PIL.Image.

Hypothesis tiles_fit :
  Forall (fun tile => PIL.size tile = (cell_width, cell_height)) tile_images.

Local Abbreviation Q := (at_cell_offset grid_size cell_width cell_height).
Local Abbreviation P := (framed grid_size cell_width cell_height canvas0).

Lemma place_tile_framed (i j : Z) (canvas : PIL.Image) (r : exn + PIL.Image)
    (out : list event) :
  0 <= i < fst grid_size -> 0 <= j < snd grid_size -> P canvas ->
  place_tile target_image cell_width cell_height tile_images tile_colors i canvas j
  = (r, out) ->
  Forall Q out /\ (forall canvas', r = inr canvas' -> P canvas').
Proof.
  intros Hi Hj [Hsz Hpx] Hrun. unfold place_tile, lift, list_get in Hrun.
  destruct (average_color_cases
              (PIL.crop target_image
                 (i * cell_width, j * cell_height,
                  (i + 1) * cell_width, (j + 1) * cell_height)))
    as [[c Hc]|Hc]; rewrite Hc in Hrun; cbn [bind app] in Hrun.
  2: { injection Hrun as <- <-. split; [repeat constructor|discriminate]. }
  destruct (closest_image tile_colors c) as [e|k]; cbn [bind app] in Hrun.
  { injection Hrun as <- <-. split; [constructor|discriminate]. }
  destruct (nth_error tile_images k) as [tile|] eqn:Hk; cbn in Hrun.
  2: { injection Hrun as <- <-. split; [constructor|discriminate]. }
  injection Hrun as <- <-.
  assert (Htile : PIL.size tile = (cell_width, cell_height)).
  { pose proof tiles_fit as Hfit. rewrite Forall_forall in Hfit.
    eapply Hfit, nth_error_In; eauto. }
  split.
  - constructor; [|constructor]. exists i, j. rewrite Htile. auto.
  - intros canvas' H. injection H as <-. split; [exact Hsz|].
    intros x y Hout. cbn [PIL.paste PIL.px].
    destruct (PIL.inside tile (x - i * cell_width) (y - j * cell_height)) eqn:Hin.
    + exfalso. apply Hout. eapply inside_cell; eauto.
    + rewrite andb_false_r. now apply Hpx.
Qed.

Lemma build_framed (canvas : PIL.Image) (r : exn + PIL.Image) (out : list event) :
  P canvas ->
  build target_image grid_size cell_width cell_height tile_images tile_colors canvas
  = (r, out) ->
  Forall Q out /\ (forall canvas', r = inr canvas' -> P canvas').
Proof.
  unfold build. apply for_fold_invariant.
  intros c i r' out' Hi Hc Hrow. apply in_range in Hi.
  destruct (for_fold (range (snd grid_size))
              (place_tile target_image cell_width cell_height
                 tile_images tile_colors i) c) as [r1 out1] eqn:Hinner.
  assert (Hinv : Forall Q out1 /\ (forall c', r1 = inr c' -> P c')).
  { revert Hinner. apply for_fold_invariant; [|exact Hc].
    intros c1 j r2 out2 Hj Hc1. apply in_range in Hj.
    now apply place_tile_framed. }
  destruct Hinv as [Hq Hp]. destruct r1 as [e|c1]; cbn in Hrow.
  - injection Hrow as <- <-. split; [exact Hq|discriminate].
  - injection Hrow as <- <-. split.
    + apply Forall_app. split; [exact Hq|]. repeat constructor.
    + intros c' H. injection H as <-. now apply Hp.
Qed.

End Assembly.

Lemma traverse_inr {A B} (f : A -> exn + B) (l : list A) (bs : list B) :
  traverse f l = inr bs -> Forall (fun b => exists a, f a = inr b) bs.
Proof.
  revert bs. induction l as [|a l IH]; intros bs H; cbn in H.
  - injection H as <-. constructor.
  - destruct (f a) as [e|b] eqn:Ha; [discriminate|].
    destruct (traverse f l) as [e|bs']; [discriminate|].
    injection H as <-. constructor; [now exists a|now apply IH].
Qed.

Lemma after_loading_inr (target_image : PIL.Image) (grid_size : Z * Z)
    (cell_width cell_height : Z)
    (tile_images : list PIL.Image) (tile_colors : list color)
    (canvas : PIL.Image) (out : list event) :
  after_loading target_image grid_size cell_width cell_height
    (tile_images, tile_colors) = (inr canvas, out) ->
  exists tile_colors' out_b,
    (1000 <= length tile_colors)%nat
    /\ Np.array2 tile_colors = inr tile_colors'
    /\ build target_image grid_size cell_width cell_height tile_images tile_colors'
         (PIL.new PIL.RGB (PIL.size target_image)) = (inr canvas, out_b)
    /\ out = Print (AllLoaded (length tile_images))
               :: map (fun c => Print (ColorLine c)) (firstn 1000 tile_colors)
               ++ Print StartingMosaic :: out_b ++ [Print MosaicComplete].
Proof.
  unfold after_loading, lift, print, emit. rewrite print_colors_spec.
  destruct (1000 <=? length tile_colors)%nat eqn:E; [|discriminate].
  apply Nat.leb_le in E. cbn [bind app].
  destruct (Np.array2 tile_colors) as [e|tile_colors']; [discriminate|].
  cbn [bind app].
  destruct (build _ _ _ _ _ _ _) as [[e|mosaic] out_b] eqn:Hb; [discriminate|].
  cbn [bind ret app]. intros H. injection H as <- <-.
  exists tile_colors', out_b. repeat split; trivial.
Qed.

Lemma paste_not_loading (out : list event) (k : nat) (x0 y0 : Z) (size : Z * Z) :
  forallb loading_event out = true -> ~ In (Paste k x0 y0 size) out.
Proof.
  intros H Hin. rewrite forallb_forall in H. now apply H in Hin.
Qed.

(** C9.  In every run that returns a canvas, the canvas has the size of
    the target image, every paste is at the offset [(i * cell_width,
    j * cell_height)] of a cell, with [i] below the number of columns and
    [j] below the number of rows, no paste writes a pixel outside the
    region [[0, columns * cell_width) x [0, rows * cell_height)], and every
    pixel of the canvas outside that region has the value, zero in each
    band, that [Image.new] gave it. *)
Theorem canvas_frame (Image_open : string -> exn + PIL.Image)
    (os_listdir : string -> exn + list string)
    (Image_resize : PIL.Image -> Z * Z -> exn + PIL.Image)
    (target_image_path tile_image_dir : string) (grid_size : Z * Z)
    (canvas : PIL.Image) (out : list event) :
  resizes_to_size Image_resize ->
  create_mosaic Image_open os_listdir Image_resize
    target_image_path tile_image_dir grid_size = (inr canvas, out) ->
  exists target_image cell_width cell_height,
    Image_open target_image_path = inr target_image
    /\ cell_width = PIL.width target_image / fst grid_size
    /\ cell_height = PIL.height target_image / snd grid_size
    /\ PIL.size canvas = PIL.size target_image
    /\ (forall k x0 y0 size,
          In (Paste k x0 y0 size) out ->
          (exists i j, 0 <= i < fst grid_size /\ 0 <= j < snd grid_size
                       /\ x0 = i * cell_width /\ y0 = j * cell_height)
          /\ (forall x y,
                x0 <= x < x0 + fst size -> y0 <= y < y0 + snd size ->
                0 <= x < fst grid_size * cell_width
                /\ 0 <= y < snd grid_size * cell_height))
    /\ (forall x y,
          ~ (0 <= x < fst grid_size * cell_width
             /\ 0 <= y < snd grid_size * cell_height) ->
          PIL.px canvas x y = [0; 0; 0]).
Proof.
  intros Hresize Hrun. rewrite create_mosaic_stages in Hrun.
  destruct (Image_open target_image_path) as [e|target_image]; [discriminate|].
  cbv zeta in Hrun.
  set (cw := PIL.width target_image / fst grid_size) in *.
  set (ch := PIL.height target_image / snd grid_size) in *.
  destruct ((fst grid_size =? 0) || (snd grid_size =? 0)); [discriminate|].
  destruct (os_listdir tile_image_dir) as [e|files]; [discriminate|].
  destruct (load_loop_spec Image_open Image_resize tile_image_dir cw ch
              (enumerate files) [] []) as (out_l & Hout_l & Hload).
  rewrite map_snd_enumerate in Hload.
  fold (load_tiles Image_open Image_resize tile_image_dir cw ch files) in Hload.
  rewrite Hload in Hrun.
  destruct (traverse _ files) as [e|resized] eqn:Hprep; [discriminate|].
  cbn [app] in Hrun.
  destruct (after_loading target_image grid_size cw ch
              (filter profiled resized, colors_of resized)) as [r out'] eqn:Hafter.
  injection Hrun as -> <-.
  destruct (after_loading_inr _ _ _ _ _ _ _ _ Hafter)
    as (tile_colors' & out_b & _ & _ & Hbuild & ->).
  assert (Hfit : Forall (fun tile => PIL.size tile = (cw, ch))
                        (filter profiled resized)).
  { apply Forall_forall. intros tile Hin. apply filter_In in Hin as [Hin _].
    pose proof (traverse_inr _ _ _ Hprep) as Hall.
    rewrite Forall_forall in Hall. destruct (Hall tile Hin) as [f Hf].
    unfold prepare in Hf. destruct (Image_open _) as [e|t]; [discriminate|].
    now apply Hresize in Hf. }
  destruct (build_framed target_image grid_size cw ch _ tile_colors'
              (PIL.new PIL.RGB (PIL.size target_image)) Hfit
              (PIL.new PIL.RGB (PIL.size target_image)) _ _
              (conj eq_refl (fun _ _ _ => eq_refl)) Hbuild) as [Hq Hp].
  destruct (Hp canvas eq_refl) as [Hsize Hpx].
  exists target_image, cw, ch. split; [reflexivity|]. do 2 (split; [reflexivity|]).
  split; [exact Hsize|]. split; [|exact Hpx].
  - intros k x0 y0 size Hin.
    assert (Hcell : at_cell_offset grid_size cw ch (Paste k x0 y0 size));
      [|destruct Hcell as (i & j & Hi & Hj & -> & -> & ->);
        split; [now exists i, j|cbn [fst snd]; intros x y Hx Hy; nia]].
    cbn [preamble app] in Hin.
    do 4 (destruct Hin as [Hin|Hin]; [discriminate|]).
    apply in_app_or in Hin as [Hin|Hin]; [now apply paste_not_loading in Hin|].
    destruct Hin as [Hin|Hin]; [discriminate|].
    apply in_app_or in Hin as [Hin|Hin].
    { apply in_map_iff in Hin as (c & Hc & _). discriminate. }
    destruct Hin as [Hin|Hin]; [discriminate|].
    apply in_app_or in Hin as [Hin|Hin].
    + rewrite Forall_forall in Hq. exact (Hq _ Hin).
    + destruct Hin as [Hin|[]]. discriminate.
Qed.

Lemma canvas_frame_witness :
  exists canvas out,
    create_mosaic (fs_open big_fs) (fs_listdir big_fs) resize_nearest
      "target.png" "tiles" (2, 2) = (inr canvas, out)
    /\ exists target_image cell_width cell_height,
         fs_open big_fs "target.png" = inr target_image
         /\ cell_width = PIL.width target_image / fst (2, 2)
         /\ cell_height = PIL.height target_image / snd (2, 2)
         /\ PIL.size canvas = PIL.size target_image
         /\ (forall k x0 y0 size,
               In (Paste k x0 y0 size) out ->
               (exists i j, 0 <= i < fst (2, 2) /\ 0 <= j < snd (2, 2)
                            /\ x0 = i * cell_width /\ y0 = j * cell_height)
               /\ (forall x y,
                     x0 <= x < x0 + fst size -> y0 <= y < y0 + snd size ->
                     0 <= x < fst (2, 2) * cell_width
                     /\ 0 <= y < snd (2, 2) * cell_height))
         /\ (forall x y,
               ~ (0 <= x < fst (2, 2) * cell_width
                  /\ 0 <= y < snd (2, 2) * cell_height) ->
               PIL.px canvas x y = [0; 0; 0]).
Proof.
  destruct (create_mosaic (fs_open big_fs) (fs_listdir big_fs) resize_nearest
              "target.png" "tiles" (2, 2)) as [[e|canvas] out] eqn:Hrun.
  - exfalso. vm_compute in Hrun. discriminate.
  - exists canvas, out. split; [reflexivity|].
    exact (canvas_frame (fs_open big_fs) (fs_listdir big_fs) resize_nearest
             "target.png" "tiles" (2, 2) canvas out
             resize_nearest_resizes_to_size Hrun).
Defined.

(** The assembly of the run on the thousand tiles of the sample: one paste
    per cell, column after column, and the four pixels of the canvas. *)
Example create_mosaic_big_run :
  match create_mosaic (fs_open big_fs) (fs_listdir big_fs) resize_nearest
          "target.png" "tiles" (2, 2) with
  | (inr canvas, out) =>
      filter assembly_event out
      = [ Print StartingMosaic; Paste 0 0 0 (1, 1); Paste 768 0 1 (1, 1);
          Print (CompletedRow 1 2);
          Paste 220 1 0 (1, 1); Paste 987 1 1 (1, 1); Print (CompletedRow 2 2);
          Print MosaicComplete ]
      /\ map (fun p => PIL.px canvas (fst p) (snd p)) [(0, 0); (1, 0); (0, 1); (1, 1)]
         = [[0; 0; 0]; [220; 55; 4]; [0; 192; 0]; [219; 246; 253]]
  | (inl _, _) => False
  end.
Proof. vm_compute. split; reflexivity. Qed.

(** ** Determinism *)

Lemma load_tiles_ext (open1 open2 : string -> exn + PIL.Image)
    (Image_resize : PIL.Image -> Z * Z -> exn + PIL.Image)
    (tile_image_dir : string) (cell_width cell_height : Z) (files : list string) :
  (forall f, In f files ->
             open1 (os_path_join tile_image_dir f) = open2 (os_path_join tile_image_dir f)) ->
  load_tiles open1 Image_resize tile_image_dir cell_width cell_height files
  = load_tiles open2 Image_resize tile_image_dir cell_width cell_height files.
Proof.
  intros H. unfold load_tiles. apply for_fold_ext_in.
  intros [tile_images tile_colors] [idx f] Hin.
  apply in_combine_r in Hin. unfold load_tile. now rewrite (H f Hin).
Qed.

(** C10.  Two runs of [create_mosaic] on the same paths and grid size, in
    two environments that hold the same target image, list the tile
    directory in the same order and hold the same image (or the same
    decoding error) for each entry listed, are one run: they return the
    same canvas, or raise the same exception, after the same effects. *)
Theorem create_mosaic_deterministic (open1 open2 : string -> exn + PIL.Image)
    (listdir1 listdir2 : string -> exn + list string)
    (Image_resize : PIL.Image -> Z * Z -> exn + PIL.Image)
    (target_image_path tile_image_dir : string) (grid_size : Z * Z)
    (files : list string) :
  open1 target_image_path = open2 target_image_path ->
  listdir1 tile_image_dir = inr files ->
  listdir2 tile_image_dir = inr files ->
  (forall f, In f files ->
             open1 (os_path_join tile_image_dir f) = open2 (os_path_join tile_image_dir f)) ->
  create_mosaic open1 listdir1 Image_resize target_image_path tile_image_dir grid_size
  = create_mosaic open2 listdir2 Image_resize target_image_path tile_image_dir grid_size.
Proof.
  intros Htarget Hdir1 Hdir2 Htiles.
  rewrite !create_mosaic_stages, <- Htarget, Hdir1, Hdir2.
  destruct (open1 target_image_path) as [e|target_image]; [reflexivity|].
  cbv zeta. now rewrite (load_tiles_ext open1 open2 _ _ _ _ _ Htiles).
Qed.

Lemma create_mosaic_deterministic_witness :
  create_mosaic (fs_open big_fs) (fs_listdir big_fs) resize_nearest
    "target.png" "tiles" (2, 2)
  = create_mosaic (fs_open bigger_fs) (fs_listdir bigger_fs) resize_nearest
      "target.png" "tiles" (2, 2).
Proof.
  apply (create_mosaic_deterministic (fs_open big_fs) (fs_open bigger_fs)
           (fs_listdir big_fs) (fs_listdir bigger_fs) resize_nearest
           "target.png" "tiles" (2, 2) (map tile_name (seq 0 1000)));
    [reflexivity|reflexivity|reflexivity|].
  intros f Hin. unfold fs_open, bigger_fs. cbn [fs_files find fst].
  destruct (String.eqb "notes.txt" (os_path_join "tiles" f)) eqn:E; [|reflexivity].
  assert (H : forallb (fun f => negb (String.eqb "notes.txt" (os_path_join "tiles" f)))
                      (map tile_name (seq 0 1000)) = true)
    by (vm_compute; reflexivity).
  rewrite forallb_forall in H. specialize (H f Hin). rewrite E in H. discriminate.
Defined.

(** The order of the listing matters: of two tiles at one distance of the
    target colour the first listed is pasted, so that the two orders of the
    listing yield two canvases. *)
Example listing_order_matters :
  match create_mosaic (fs_open (tie_fs "bw.png" "wb.png"))
          (fs_listdir (tie_fs "bw.png" "wb.png")) resize_nearest
          "target.png" "tiles" (1, 1),
        create_mosaic (fs_open (tie_fs "wb.png" "bw.png"))
          (fs_listdir (tie_fs "wb.png" "bw.png")) resize_nearest
          "target.png" "tiles" (1, 1) with
  | (inr canvas1, _), (inr canvas2, _) =>
      PIL.px canvas1 0 0 = [0; 0; 0] /\ PIL.px canvas2 0 0 = [255; 255; 255]
  | _, _ => False
  end.
Proof. vm_compute. split; reflexivity. Qed.

(** * Further properties *)

(** ** [average_color] on images of several bands *)

Lemma strided_sum_blocks (rows : list (list Z)) (b k : nat) :
  (k < b)%nat ->
  Forall (fun r => length r = b) rows ->
  Np.strided_sum (length rows) b k (concat rows)
  = Zsum (map (fun r => nth k r 0) rows).
Proof.
  intros Hk. induction rows as [|r rows IH]; intros Hall; [reflexivity|].
  inversion Hall as [|? ? Hr Hrows]; subst.
  cbn [length concat Np.strided_sum map Zsum fold_right].
  fold (Zsum (map (fun r0 => nth k r0 0) rows)).
  rewrite app_nth1 by exact Hk.
  rewrite skipn_app, skipn_all, Nat.sub_diag. cbn [app skipn].
  now rewrite IH.
Qed.

Lemma flat_map_flat_map_concat {A B C} (g : A -> B -> list C)
    (xs : list A) (ys : list B) :
  flat_map (fun y => flat_map (fun x => g x y) xs) ys
  = concat (flat_map (fun y => map (fun x => g x y) xs) ys).
Proof.
  induction ys as [|y ys IH]; [reflexivity|].
  cbn [flat_map]. now rewrite concat_app, IH, flat_map_concat_map.
Qed.

Lemma map_flat_map {A B C} (f : B -> C) (g : A -> list B) (l : list A) :
  map f (flat_map g l) = flat_map (fun a => map f (g a)) l.
Proof.
  induction l as [|a l IH]; [reflexivity|].
  cbn [flat_map]. now rewrite map_app, IH.
Qed.

Lemma nth_band (im : PIL.Image) (x y : Z) (b k : nat) :
  (k < b)%nat -> nth k (map (PIL.sample im x y) (seq 0 b)) 0 = PIL.sample im x y k.
Proof.
  intros Hk.
  rewrite (nth_indep _ 0 (PIL.sample im x y 0)) by (now rewrite length_map, length_seq).
  now rewrite map_nth, seq_nth.
Qed.

(** The sum that [np.mean] accumulates for band [k] of an array of three
    axes is the sum of the samples of that band. *)
Lemma strided_sum_array (im : PIL.Image) (k : nat) :
  let b := PIL.bands (PIL.im_mode im) in
  (k < b)%nat -> 0 <= PIL.width im -> 0 <= PIL.height im ->
  Np.strided_sum (Z.to_nat (PIL.height im * PIL.width im)) b k
    (flat_map (fun y =>
       flat_map (fun x => map (PIL.sample im x y) (seq 0 b)) (range (PIL.width im)))
       (range (PIL.height im)))
  = Zsum (flat_map (fun y => map (fun x => PIL.sample im x y k) (range (PIL.width im)))
                   (range (PIL.height im))).
Proof.
  intros b Hk Hw Hh.
  rewrite (flat_map_flat_map_concat
             (fun x y => map (PIL.sample im x y) (seq 0 b))).
  set (rows := flat_map _ (range (PIL.height im))).
  assert (Hlen : length rows = Z.to_nat (PIL.height im * PIL.width im)).
  { subst rows. rewrite (flat_map_length_const _ (Z.to_nat (PIL.width im))).
    - rewrite range_length. lia.
    - intros y. now rewrite length_map, range_length. }
  rewrite <- Hlen, (strided_sum_blocks rows b k Hk).
  - subst rows. rewrite map_flat_map. f_equal. apply flat_map_ext. intros y.
    rewrite map_map. apply map_ext. intros x. now apply nth_band.
  - subst rows. apply Forall_forall. intros r Hr.
    apply in_flat_map in Hr as (y & _ & Hr). apply in_map_iff in Hr as (x & <- & _).
    now rewrite length_map, length_seq.
Qed.

(** The colour of an image of mode LA or RGB: one mean per band. *)
Lemma average_color_bands (im : PIL.Image) :
  PIL.im_mode im = PIL.RGB \/ PIL.im_mode im = PIL.LA ->
  0 <= PIL.width im -> 0 <= PIL.height im ->
  average_color im
  = (inr (map (arithmetic_mean im) (seq 0 (PIL.bands (PIL.im_mode im)))), []).
Proof.
  intros Hm Hw Hh. set (b := PIL.bands (PIL.im_mode im)).
  assert (Hshape : Np.shape (Np.array im)
                   = [PIL.height im; PIL.width im; Z.of_nat b]).
  { subst b. unfold Np.array. destruct Hm as [-> | ->]; reflexivity. }
  assert (Hb : Z.of_nat b = 3 \/ Z.of_nat b = 2).
  { subst b. destruct Hm as [-> | ->]; [left|right]; reflexivity. }
  unfold average_color, Np.last_dim, Np.mean_axis01. rewrite Hshape.
  cbn [length Nat.eqb]. rewrite Hshape.
  cbn [last nth skipn Np.product fold_right].
  assert (E : (Z.of_nat b =? 4) = false) by (apply Z.eqb_neq; lia).
  rewrite E, Z.mul_1_r, Nat2Z.id. cbn [bind ret app]. do 2 f_equal.
  apply map_ext_in. intros k Hk. apply in_seq in Hk.
  unfold Np.array. cbn [Np.data]. subst b.
  rewrite (strided_sum_array im k) by lia.
  unfold arithmetic_mean. now rewrite (Z.mul_comm (PIL.width im)).
Qed.

(** X1.  [average_color] on an RGB image returns the three arithmetic
    means of the red, green and blue bands over all pixels, in that order,
    and prints nothing. *)
Theorem average_color_RGB (im : PIL.Image) :
  PIL.im_mode im = PIL.RGB -> 0 <= PIL.width im -> 0 <= PIL.height im ->
  average_color im
  = (inr [arithmetic_mean im 0; arithmetic_mean im 1; arithmetic_mean im 2], []).
Proof.
  intros Hm Hw Hh. rewrite (average_color_bands im (or_introl Hm) Hw Hh).
  now rewrite Hm.
Qed.

Lemma average_color_RGB_witness :
  average_color target_2x2
  = (inr [arithmetic_mean target_2x2 0; arithmetic_mean target_2x2 1;
          arithmetic_mean target_2x2 2], []).
Proof.
  apply (average_color_RGB target_2x2); [reflexivity|vm_compute; discriminate..].
Defined.

(** X2.  [average_color] raises exactly on the images of four bands.  On
    such an image it prints the warning and then fails the assertion; on
    any other image it prints nothing and returns a colour, of three
    components for a one-band or an RGB image, of two components for a
    grey image with an alpha band. *)
Theorem average_color_rejects_four_bands (im : PIL.Image) :
  match PIL.im_mode im with
  | PIL.RGBA =>
      average_color im
      = (inl (AssertionError "Image must be RGB"), [Print WarningIgnoringAlpha])
  | PIL.LA => exists c, average_color im = (inr c, []) /\ length c = 2%nat
  | PIL.L | PIL.RGB => exists c, average_color im = (inr c, []) /\ length c = 3%nat
  end.
Proof.
  unfold average_color, Np.array, Np.last_dim, Np.mean_axis01.
  destruct (PIL.im_mode im); cbn;
    try change (Pos.to_nat 3) with 3%nat; try change (Pos.to_nat 2) with 2%nat;
    cbn [seq map]; try reflexivity; eexists; split; reflexivity.
Qed.

(** ** Images without pixels *)

Lemma arithmetic_mean_no_pixel (im : PIL.Image) (c : nat) :
  PIL.width im = 0 \/ PIL.height im = 0 -> arithmetic_mean im c = S754_nan.
Proof.
  intros H. unfold arithmetic_mean.
  assert (E : flat_map (fun y => map (fun x => PIL.sample im x y c)
                                     (range (PIL.width im)))
                       (range (PIL.height im)) = []).
  { destruct H as [-> | ->]; [|reflexivity].
    induction (range (PIL.height im)) as [|y ys IH]; [reflexivity|exact IH]. }
  rewrite E. destruct H as [-> | ->]; [|rewrite Z.mul_0_r]; reflexivity.
Qed.

(** X3.  On a one-band or RGB image that has no pixel (its width or its
    height is zero) [average_color] raises nothing: it returns the colour
    whose three components are NaN, the mean of no sample. *)
Theorem average_color_no_pixel (im : PIL.Image) :
  PIL.im_mode im = PIL.L \/ PIL.im_mode im = PIL.RGB ->
  0 <= PIL.width im -> 0 <= PIL.height im ->
  PIL.width im = 0 \/ PIL.height im = 0 ->
  average_color im = (inr [S754_nan; S754_nan; S754_nan], []).
Proof.
  intros [Hm|Hm] Hw Hh Hempty.
  - rewrite (average_color_L im Hm Hw Hh).
    now rewrite (arithmetic_mean_no_pixel im 0 Hempty).
  - rewrite (average_color_bands im (or_introl Hm) Hw Hh), Hm. cbn [PIL.bands seq map].
    now rewrite !(arithmetic_mean_no_pixel im _ Hempty).
Qed.

Lemma average_color_no_pixel_witness :
  average_color rgb_0x2 = (inr [S754_nan; S754_nan; S754_nan], [])
  /\ average_color gray_3x0 = (inr [S754_nan; S754_nan; S754_nan], []).
Proof.
  split.
  - apply (average_color_no_pixel rgb_0x2); [right; reflexivity|..];
      vm_compute; solve [discriminate | left; reflexivity].
  - apply (average_color_no_pixel gray_3x0); [left; reflexivity|..];
      vm_compute; solve [discriminate | right; reflexivity].
Defined.

(** ** [closest_image]: bounds and errors *)

Lemma argmin_from_bound (d : list F64.t) :
  forall (i bi : nat) (best : F64.t),
    Np.argmin_from d i bi best = bi
    \/ (i <= Np.argmin_from d i bi best < i + length d)%nat.
Proof.
  induction d as [|x d IH]; intros i bi best; [now left|].
  cbn [Np.argmin_from length].
  destruct (F64.geb x best).
  - destruct (IH (S i) bi best) as [H|H]; [now left|right; lia].
  - destruct (F64.isnan x); [right; lia|].
    destruct (IH (S i) i x) as [H|H]; right; lia.
Qed.

Lemma argmin_bound (d : list F64.t) (r : nat) :
  Np.argmin d = inr r -> (r < length d)%nat.
Proof.
  destruct d as [|x d]; [discriminate|]. cbn [Np.argmin length].
  intros H. injection H as <-.
  destruct (F64.isnan x); [lia|].
  destruct (argmin_from_bound d 1 0 x) as [-> | H]; lia.
Qed.

Lemma argmin_error (d : list F64.t) (e : exn) :
  Np.argmin d = inl e -> exists msg, e = ValueError msg.
Proof. destruct d; [|discriminate]. intros H. injection H as <-. eauto. Qed.

Lemma traverse_length {A B} (f : A -> exn + B) (l : list A) (bs : list B) :
  traverse f l = inr bs -> length bs = length l.
Proof.
  revert bs. induction l as [|a l IH]; intros bs H; cbn in H.
  - now injection H as <-.
  - destruct (f a); [discriminate|]. destruct (traverse f l); [discriminate|].
    injection H as <-. cbn. f_equal. now apply IH.
Qed.

Lemma traverse_error {A B} (f : A -> exn + B) (l : list A) (e : exn) :
  traverse f l = inl e -> exists a, In a l /\ f a = inl e.
Proof.
  induction l as [|a l IH]; intros H; cbn in H; [discriminate|].
  destruct (f a) as [e'|b] eqn:Ha.
  - injection H as <-. exists a. split; [now left|exact Ha].
  - destruct (traverse f l) as [e'|bs]; [|discriminate].
    injection H as <-. destruct (IH eq_refl) as (a' & Hin & Ha').
    exists a'. split; [now right|exact Ha'].
Qed.

Lemma distance_error (target_color tile_color : color) (e : exn) :
  distance target_color tile_color = inl e -> exists msg, e = ValueError msg.
Proof.
  unfold distance, Np.broadcast_sub.
  destruct (length tile_color =? length target_color)%nat; [discriminate|].
  destruct tile_color as [|x [|x' tile_color]];
    destruct target_color as [|y [|y' target_color]];
    try discriminate; intros H; injection H as <-; eauto.
Qed.

Lemma closest_image_bound (tile_colors : list color) (target_color : color) (i : nat) :
  closest_image tile_colors target_color = inr i -> (i < length tile_colors)%nat.
Proof.
  unfold closest_image. destruct tile_colors as [|c cs]; [discriminate|].
  destruct (distances (c :: cs) target_color) as [e|d] eqn:Hd; [discriminate|].
  intros H. apply argmin_bound in H.
  unfold distances in Hd. apply traverse_length in Hd. now rewrite <- Hd.
Qed.

Lemma closest_image_error (tile_colors : list color) (target_color : color) (e : exn) :
  closest_image tile_colors target_color = inl e -> exists msg, e = ValueError msg.
Proof.
  unfold closest_image. destruct tile_colors as [|c cs].
  - intros H. injection H as <-. eauto.
  - destruct (distances (c :: cs) target_color) as [e'|d] eqn:Hd.
    + intros H. injection H as <-. unfold distances in Hd.
      apply traverse_error in Hd as (a & _ & Ha). eapply distance_error; eauto.
    + apply argmin_error.
Qed.

(** X4.  Whatever the colours, NaN and infinities included, and whatever
    their numbers of components, [closest_image] either returns an index
    that is below the number of tile colours, or raises a [ValueError]
    (no tile colour, or shapes that cannot be broadcast); it raises nothing
    else. *)
Theorem closest_image_outcome (tile_colors : list color) (target_color : color) :
  match closest_image tile_colors target_color with
  | inr i => (i < length tile_colors)%nat
  | inl e => exists msg, e = ValueError msg
  end.
Proof.
  destruct (closest_image tile_colors target_color) as [e|i] eqn:H.
  - eapply closest_image_error; eauto.
  - eapply closest_image_bound; eauto.
Qed.

(** ** [closest_image]: an exact match, and a NaN *)










Lemma sum_row_nan (r : color) : In S754_nan r -> Np.sum_row r = S754_nan.
Proof.
  unfold Np.sum_row. generalize F64.zero.
  induction r as [|x r IH]; intros acc []; cbn [fold_left].
  - subst x. assert (E : F64.add acc S754_nan = S754_nan) by now destruct acc.
    rewrite E. clear. induction r as [|y r IH]; [reflexivity|exact IH].
  - now apply IH.
Qed.

Lemma euclidean_nan_target (target_color tile_color : color) :
  length tile_color = length target_color ->
  In S754_nan target_color ->
  euclidean target_color tile_color = S754_nan.
Proof.
  intros Hlen Hin. unfold euclidean, squared_distance.
  rewrite sum_row_nan; [reflexivity|].
  apply In_nth_error in Hin as [k Hk].
  assert (Hk' : (k < length tile_color)%nat).
  { rewrite Hlen. apply (proj1 (nth_error_Some target_color k)).
    unfold color, F64.t in *. rewrite Hk. discriminate. }
  apply (proj2 (nth_error_Some tile_color k)) in Hk'.
  destruct (nth_error tile_color k) as [x|] eqn:Hx; [|contradiction].
  apply in_map_iff. exists (x, S754_nan). split.
  - cbn [fst snd]. assert (E : F64.sub x S754_nan = S754_nan) by now destruct x.
    now rewrite E.
  - clear Hk' Hlen. revert k Hk Hx. revert target_color.
    induction tile_color as [|a l IH]; intros [|b t] [|k] Hk Hx; try discriminate.
    + cbn in *. left. injection Hk as ->. now injection Hx as ->.
    + cbn [nth_error combine] in *. right. eapply IH; eauto.
Qed.

(** X6.  When a component of the target colour is NaN (as for the colour of
    a cell that has no pixel) and the tile colours have as many components
    as it, every distance is NaN and [closest_image] returns index 0,
    whatever the tile colours. *)
Theorem closest_image_nan_target (tile_colors : list color) (target_color : color) :
  tile_colors <> [] ->
  forallb (fun c => (length c =? length target_color)%nat) tile_colors = true ->
  In S754_nan target_color ->
  closest_image tile_colors target_color = inr 0%nat.
Proof.
  intros Hne Hlen Hnan.
  assert (Hd : distances tile_colors target_color
               = inr (map (fun _ => S754_nan) tile_colors)).
  { unfold distances. clear Hne.
    induction tile_colors as [|c cs IH]; [reflexivity|].
    cbn [forallb] in Hlen. apply andb_true_iff in Hlen as [Hc Hcs].
    apply Nat.eqb_eq in Hc. cbn [traverse map].
    rewrite (distance_rgb target_color c Hc), (euclidean_nan_target _ _ Hc Hnan).
    now rewrite (IH Hcs). }
  unfold closest_image. destruct tile_colors as [|c cs]; [congruence|].
  rewrite Hd. reflexivity.
Qed.

Lemma closest_image_nan_target_witness :
  closest_image [white; grey; black] [S754_nan; S754_nan; S754_nan] = inr 0%nat.
Proof.
  apply (closest_image_nan_target [white; grey; black] [S754_nan; S754_nan; S754_nan]);
    [discriminate|reflexivity|left; reflexivity].
Defined.

(** ** The ways in which a run of [create_mosaic] ends *)

Lemma array2_inr (rows rows' : list color) : Np.array2 rows = inr rows' -> rows' = rows.
Proof.
  unfold Np.array2. destruct rows as [|r rows]; [now intros H; injection H|].
  destruct (forallb (fun r' => (length r' =? length r)%nat) rows);
    [now intros H; injection H|discriminate].
Qed.

Lemma no_assembly_inv (out : list event) :
  existsb assembly_event out = false ->
  ~ In (Print StartingMosaic) out
  /\ forall k x0 y0 size, ~ In (Paste k x0 y0 size) out.
Proof.
  intros H. split; [|intros k x0 y0 size]; intros Hin;
    (assert (E : existsb assembly_event out = true);
     [apply existsb_exists; eexists; split; [exact Hin|reflexivity]|congruence]).
Qed.

Ltac no_assembly Hno :=
  cbn [preamble app existsb assembly_event orb];
  rewrite ?existsb_app; cbn [existsb assembly_event orb];
  rewrite ?Hno, ?no_assembly_in_colors; reflexivity.

Lemma colors_of_length (ims : list PIL.Image) :
  (length (colors_of ims) <= length ims)%nat.
Proof.
  rewrite <- (Forall2_length (colors_of_profile ims)). apply filter_length_le.
Qed.

(** A run either raises before the assembly begins, or it has loaded at
    least a thousand tiles, of colours of one length, and ends as the loops
    of the assembly end. *)
Lemma create_mosaic_cases (Image_open : string -> exn + PIL.Image)
    (os_listdir : string -> exn + list string)
    (Image_resize : PIL.Image -> Z * Z -> exn + PIL.Image)
    (target_image_path tile_image_dir : string) (grid_size : Z * Z)
    (r : exn + PIL.Image) (out : list event) :
  create_mosaic Image_open os_listdir Image_resize
    target_image_path tile_image_dir grid_size = (r, out) ->
  (exists e, r = inl e /\ existsb assembly_event out = false)
  \/ (exists target_image files resized out_l out_b,
        Image_open target_image_path = inr target_image
        /\ fst grid_size <> 0 /\ snd grid_size <> 0
        /\ os_listdir tile_image_dir = inr files
        /\ traverse (prepare Image_open Image_resize tile_image_dir
                       (PIL.width target_image / fst grid_size)
                       (PIL.height target_image / snd grid_size)) files
           = inr resized
        /\ load_tiles Image_open Image_resize tile_image_dir
             (PIL.width target_image / fst grid_size)
             (PIL.height target_image / snd grid_size) files
           = (inr (filter profiled resized, colors_of resized), out_l)
        /\ (1000 <= length (colors_of resized))%nat
        /\ Np.array2 (colors_of resized) = inr (colors_of resized)
        /\ forallb loading_event out_l = true
        /\ build target_image grid_size
             (PIL.width target_image / fst grid_size)
             (PIL.height target_image / snd grid_size)
             (filter profiled resized) (colors_of resized)
             (PIL.new PIL.RGB (PIL.size target_image)) = (r, out_b)
        /\ out = preamble target_image grid_size ++ out_l
                   ++ Print (AllLoaded (length (filter profiled resized)))
                   :: map (fun c => Print (ColorLine c)) (firstn 1000 (colors_of resized))
                   ++ Print StartingMosaic :: out_b
                   ++ match r with inr _ => [Print MosaicComplete] | inl _ => [] end).
Proof.
  intros Hrun. rewrite create_mosaic_stages in Hrun.
  destruct (Image_open target_image_path) as [e|target_image] eqn:Hopen.
  { injection Hrun as <- <-. left. now exists e. }
  cbv zeta in Hrun.
  set (cw := PIL.width target_image / fst grid_size) in *.
  set (ch := PIL.height target_image / snd grid_size) in *.
  destruct ((fst grid_size =? 0) || (snd grid_size =? 0)) eqn:Hgrid.
  { injection Hrun as <- <-. left. now eexists. }
  apply orb_false_iff in Hgrid as [Hc Hr]. apply Z.eqb_neq in Hc, Hr.
  destruct (os_listdir tile_image_dir) as [e|files] eqn:Hdir.
  { injection Hrun as <- <-. left. now exists e. }
  destruct (load_loop_spec Image_open Image_resize tile_image_dir cw ch
              (enumerate files) [] []) as (out_l & Hout_l & Hload).
  rewrite map_snd_enumerate in Hload.
  fold (load_tiles Image_open Image_resize tile_image_dir cw ch files) in Hload.
  rewrite Hload in Hrun.
  pose proof (no_assembly_in_loading _ Hout_l) as Hno.
  destruct (traverse _ files) as [e|resized] eqn:Hprep.
  { injection Hrun as <- <-. left. exists e. split; [reflexivity|].
    no_assembly Hno. }
  cbn [app] in Hrun, Hload.
  destruct (Nat.lt_ge_cases (length (colors_of resized)) 1000) as [Hlen|Hlen].
  { rewrite after_loading_short in Hrun by exact Hlen.
    injection Hrun as <- <-. left. eexists. split; [reflexivity|].
    no_assembly Hno. }
  unfold after_loading, lift, print, emit in Hrun. rewrite print_colors_spec in Hrun.
  apply Nat.leb_le in Hlen. rewrite Hlen in Hrun. apply Nat.leb_le in Hlen.
  cbn [bind app] in Hrun.
  destruct (Np.array2 (colors_of resized)) as [e|tile_colors'] eqn:Harr.
  { cbn [bind app] in Hrun. injection Hrun as <- <-. left. eexists.
    split; [reflexivity|]. rewrite ?app_nil_r. no_assembly Hno. }
  pose proof (array2_inr _ _ Harr) as ->.
  cbn [bind app] in Hrun.
  destruct (build _ _ _ _ _ _ _) as [[e|mosaic] out_b] eqn:Hbuild;
    cbn [bind ret app] in Hrun; injection Hrun as <- <-; right;
    exists target_image, files, resized, out_l, out_b;
    repeat (split; [assumption || reflexivity|]);
    now rewrite ?app_nil_r.
Qed.

(** X7.  When a component of [grid_size] is zero, [create_mosaic] raises
    [ZeroDivisionError] at the computation of the cell size: it has opened
    the target and printed its size, and it does nothing else (no cell
    size is reported, the tile directory is not listed). *)
Theorem create_mosaic_zero_grid (Image_open : string -> exn + PIL.Image)
    (os_listdir : string -> exn + list string)
    (Image_resize : PIL.Image -> Z * Z -> exn + PIL.Image)
    (target_image_path tile_image_dir : string) (grid_size : Z * Z)
    (target_image : PIL.Image) :
  Image_open target_image_path = inr target_image ->
  fst grid_size = 0 \/ snd grid_size = 0 ->
  create_mosaic Image_open os_listdir Image_resize
    target_image_path tile_image_dir grid_size
  = (inl ZeroDivisionError,
     [ Print LoadingTarget;
       Print (TargetLoaded (PIL.width target_image) (PIL.height target_image)) ]).
Proof.
  intros Hopen Hzero. rewrite create_mosaic_stages, Hopen. cbv zeta.
  assert (E : (fst grid_size =? 0) || (snd grid_size =? 0) = true).
  { apply orb_true_iff. destruct Hzero as [-> | ->]; [left|right]; reflexivity. }
  now rewrite E.
Qed.

Lemma create_mosaic_zero_grid_witness :
  create_mosaic (fs_open small_fs) (fs_listdir small_fs) resize_nearest
    "target.png" "tiles" (2, 0)
  = (inl ZeroDivisionError,
     [ Print LoadingTarget;
       Print (TargetLoaded (PIL.width target_2x2) (PIL.height target_2x2)) ]).
Proof.
  apply (create_mosaic_zero_grid (fs_open small_fs) (fs_listdir small_fs)
           resize_nearest "target.png" "tiles" (2, 0) target_2x2 eq_refl).
  right. reflexivity.
Defined.

Lemma traverse_fails {A B} (f : A -> exn + B) (l : list A) (a : A) (e : exn) :
  In a l -> f a = inl e -> exists e', traverse f l = inl e'.
Proof.
  induction l as [|b l IH]; intros [] Ha; cbn [traverse].
  - subst b. rewrite Ha. eauto.
  - destruct (f b) as [e'|b']; [eauto|].
    destruct (IH H Ha) as [e' ->]. eauto.
Qed.

(** X8.  One entry of the tile directory that cannot be opened is enough
    for [create_mosaic] to return no canvas: whatever the other entries,
    the run raises before any step of the assembly. *)
Theorem unreadable_tile_aborts (Image_open : string -> exn + PIL.Image)
    (os_listdir : string -> exn + list string)
    (Image_resize : PIL.Image -> Z * Z -> exn + PIL.Image)
    (target_image_path tile_image_dir : string) (grid_size : Z * Z)
    (files : list string) (file_name : string) (e : exn) :
  os_listdir tile_image_dir = inr files ->
  In file_name files ->
  Image_open (os_path_join tile_image_dir file_name) = inl e ->
  exists e' out,
    create_mosaic Image_open os_listdir Image_resize
      target_image_path tile_image_dir grid_size = (inl e', out)
    /\ existsb assembly_event out = false.
Proof.
  intros Hdir Hin Hbad.
  destruct (create_mosaic Image_open os_listdir Image_resize
              target_image_path tile_image_dir grid_size) as [r out] eqn:Hrun.
  destruct (create_mosaic_cases _ _ _ _ _ _ _ _ Hrun)
    as [(e' & -> & Hno)|(target & files' & resized & out_l & out_b & _ & _ & _
                          & Hdir' & Hprep & _)].
  - now exists e', out.
  - exfalso. rewrite Hdir in Hdir'. injection Hdir' as <-.
    destruct (traverse_fails
                (prepare Image_open Image_resize tile_image_dir
                   (PIL.width target / fst grid_size)
                   (PIL.height target / snd grid_size))
                files file_name e Hin) as [e' He'];
      [|rewrite He' in Hprep; discriminate].
    unfold prepare. now rewrite Hbad.
Qed.

Lemma unreadable_tile_aborts_witness :
  exists e' out,
    create_mosaic (fs_open small_fs) (fs_listdir small_fs) resize_nearest
      "target.png" "mixed" (2, 2) = (inl e', out)
    /\ existsb assembly_event out = false.
Proof.
  apply (unreadable_tile_aborts (fs_open small_fs) (fs_listdir small_fs)
           resize_nearest "target.png" "mixed" (2, 2)
           ["notes.txt"; "red.png"]%string "notes.txt"
           (OSError "cannot identify image file") eq_refl);
    [left; reflexivity|reflexivity].
Defined.

(** X9.  A tile directory of fewer than 1000 entries never yields a
    mosaic: [create_mosaic] raises before any step of the assembly,
    whatever the entries are. *)
Theorem small_directory_fails (Image_open : string -> exn + PIL.Image)
    (os_listdir : string -> exn + list string)
    (Image_resize : PIL.Image -> Z * Z -> exn + PIL.Image)
    (target_image_path tile_image_dir : string) (grid_size : Z * Z)
    (files : list string) :
  os_listdir tile_image_dir = inr files ->
  (length files < 1000)%nat ->
  exists e out,
    create_mosaic Image_open os_listdir Image_resize
      target_image_path tile_image_dir grid_size = (inl e, out)
    /\ existsb assembly_event out = false.
Proof.
  intros Hdir Hlen.
  destruct (create_mosaic Image_open os_listdir Image_resize
              target_image_path tile_image_dir grid_size) as [r out] eqn:Hrun.
  destruct (create_mosaic_cases _ _ _ _ _ _ _ _ Hrun)
    as [(e' & -> & Hno)|(target & files' & resized & out_l & out_b & _ & _ & _
                          & Hdir' & Hprep & _ & Hmany & _)].
  - now exists e', out.
  - exfalso. rewrite Hdir in Hdir'. injection Hdir' as <-.
    apply traverse_length in Hprep.
    pose proof (colors_of_length resized). lia.
Qed.

Lemma small_directory_fails_witness :
  exists e out,
    create_mosaic (fs_open small_fs) (fs_listdir small_fs) resize_nearest
      "target.png" "tiles" (2, 2) = (inl e, out)
    /\ existsb assembly_event out = false.
Proof.
  apply (small_directory_fails (fs_open small_fs) (fs_listdir small_fs)
           resize_nearest "target.png" "tiles" (2, 2)
           ["red.png"; "clear.png"; "blue.png"]%string eq_refl).
  vm_compute. lia.
Defined.

(** ** A target with an alpha band *)

Lemma range_pos (n : Z) : 0 < n -> exists l, range n = 0 :: l.
Proof.
  intros Hn. unfold range.
  destruct (Z.to_nat n) as [|m] eqn:E; [lia|].
  cbn [seq map]. eauto.
Qed.

Lemma build_alpha_target (target_image : PIL.Image) (grid_size : Z * Z)
    (cell_width cell_height : Z)
    (tile_images : list PIL.Image) (tile_colors : list color) (canvas : PIL.Image) :
  PIL.im_mode target_image = PIL.RGBA ->
  0 < fst grid_size -> 0 < snd grid_size ->
  build target_image grid_size cell_width cell_height tile_images tile_colors canvas
  = (inl (AssertionError "Image must be RGB"), [Print WarningIgnoringAlpha]).
Proof.
  intros Hm Hc Hr. unfold build.
  destruct (range_pos _ Hc) as [lc ->]. destruct (range_pos _ Hr) as [lr ->].
  cbn [for_fold]. unfold place_tile at 1.
  rewrite average_color_RGBA_fails by exact Hm. reflexivity.
Qed.

(** X10.  A target image that has an alpha band never yields a mosaic.
    With a grid of positive size, [create_mosaic] raises, and pastes
    nothing; when the run reaches the assembly, it is the assertion of
    [average_color] on the first cell that fails. *)
Theorem alpha_target_fails (Image_open : string -> exn + PIL.Image)
    (os_listdir : string -> exn + list string)
    (Image_resize : PIL.Image -> Z * Z -> exn + PIL.Image)
    (target_image_path tile_image_dir : string) (grid_size : Z * Z)
    (target_image : PIL.Image) :
  Image_open target_image_path = inr target_image ->
  PIL.im_mode target_image = PIL.RGBA ->
  0 < fst grid_size -> 0 < snd grid_size ->
  exists e out,
    create_mosaic Image_open os_listdir Image_resize
      target_image_path tile_image_dir grid_size = (inl e, out)
    /\ (forall k x0 y0 size, ~ In (Paste k x0 y0 size) out)
    /\ (In (Print StartingMosaic) out -> e = AssertionError "Image must be RGB").
Proof.
  intros Hopen Hm Hc Hr.
  destruct (create_mosaic Image_open os_listdir Image_resize
              target_image_path tile_image_dir grid_size) as [r out] eqn:Hrun.
  destruct (create_mosaic_cases _ _ _ _ _ _ _ _ Hrun)
    as [(e & -> & Hno)|(target & files & resized & out_l & out_b & Hopen' & _ & _
                         & _ & _ & _ & _ & _ & Hout_l & Hbuild & ->)].
  - exists e, out. split; [reflexivity|].
    destruct (no_assembly_inv out Hno) as [H1 H2]. split; [exact H2|].
    intros H. contradiction.
  - rewrite Hopen in Hopen'. injection Hopen' as <-.
    rewrite (build_alpha_target _ _ _ _ _ _ _ Hm Hc Hr) in Hbuild.
    injection Hbuild as <- <-.
    eexists _, _. split; [reflexivity|]. split; [|reflexivity].
    intros k x0 y0 size Hin. cbn [preamble app] in Hin.
    do 4 (destruct Hin as [Hin|Hin]; [discriminate|]).
    apply in_app_or in Hin as [Hin|Hin]; [now apply paste_not_loading in Hin|].
    destruct Hin as [Hin|Hin]; [discriminate|].
    apply in_app_or in Hin as [Hin|Hin].
    { apply in_map_iff in Hin as (c & Hc' & _). discriminate. }
    repeat (destruct Hin as [Hin|Hin]; [discriminate|]). contradiction.
Qed.

Lemma alpha_target_fails_witness :
  exists e out,
    create_mosaic (fs_open rgba_target_fs) (fs_listdir rgba_target_fs) resize_nearest
      "target.png" "tiles" (2, 2) = (inl e, out)
    /\ (forall k x0 y0 size, ~ In (Paste k x0 y0 size) out)
    /\ (In (Print StartingMosaic) out -> e = AssertionError "Image must be RGB").
Proof.
  apply (alpha_target_fails (fs_open rgba_target_fs) (fs_listdir rgba_target_fs)
           resize_nearest "target.png" "tiles" (2, 2)
           (solid PIL.RGBA 2 2 [10; 20; 30; 255]) eq_refl eq_refl);
    reflexivity.
Defined.

(** The run on the thousand tiles and the target with an alpha band: the
    assembly begins, and ends at the first cell. *)
Example create_mosaic_alpha_target_run :
  match create_mosaic (fs_open rgba_target_fs) (fs_listdir rgba_target_fs)
          resize_nearest "target.png" "tiles" (2, 2) with
  | (r, out) =>
      r = inl (AssertionError "Image must be RGB")
      /\ filter (fun ev => negb (loading_event ev)) (skipn 4 out)
         = [Print (AllLoaded 1000); Print StartingMosaic]
      /\ last out (Print LoadingTarget) = Print WarningIgnoringAlpha
  end.
Proof. vm_compute. repeat split. Qed.

(** ** The errors of the assembly *)

Lemma for_fold_error {A S} (xs : list A) (body : S -> A -> M S) :
  forall (s : S) (e : exn) (out : list event),
    for_fold xs body s = (inl e, out) ->
    exists x s0 out0, In x xs /\ body s0 x = (inl e, out0).
Proof.
  induction xs as [|x xs IH]; intros s e out H; [discriminate|].
  cbn [for_fold] in H.
  destruct (body s x) as [[e'|s1] out1] eqn:Hx.
  - cbn in H. injection H as <- <-. exists x, s, out1. split; [now left|exact Hx].
  - cbn [bind] in H. destruct (for_fold xs body s1) as [r' out'] eqn:Hrest.
    injection H as -> _.
    destruct (IH _ _ _ Hrest) as (x' & s0 & out0 & Hin & Hx').
    exists x', s0, out0. split; [now right|exact Hx'].
Qed.

Lemma place_tile_error (target_image : PIL.Image) (cell_width cell_height : Z)
    (tile_images : list PIL.Image) (tile_colors : list color)
    (i j : Z) (canvas : PIL.Image) (e : exn) (out : list event) :
  length tile_images = length tile_colors ->
  place_tile target_image cell_width cell_height tile_images tile_colors i canvas j
  = (inl e, out) ->
  e = AssertionError "Image must be RGB" \/ exists msg, e = ValueError msg.
Proof.
  intros Hlen Hrun. unfold place_tile, lift, list_get in Hrun.
  destruct (average_color_cases
              (PIL.crop target_image
                 (i * cell_width, j * cell_height,
                  (i + 1) * cell_width, (j + 1) * cell_height)))
    as [[c Hc]|Hc]; rewrite Hc in Hrun; cbn [bind app] in Hrun.
  2: { injection Hrun as <- _. now left. }
  destruct (closest_image tile_colors c) as [e'|k] eqn:Hk; cbn [bind app] in Hrun.
  { injection Hrun as <- _. right. eapply closest_image_error; eauto. }
  apply closest_image_bound in Hk. rewrite <- Hlen in Hk.
  apply (proj2 (nth_error_Some tile_images k)) in Hk.
  destruct (nth_error tile_images k) as [tile|]; [|contradiction].
  cbn in Hrun. discriminate.
Qed.

Lemma build_error (target_image : PIL.Image) (grid_size : Z * Z)
    (cell_width cell_height : Z)
    (tile_images : list PIL.Image) (tile_colors : list color)
    (canvas : PIL.Image) (e : exn) (out : list event) :
  length tile_images = length tile_colors ->
  build target_image grid_size cell_width cell_height tile_images tile_colors canvas
  = (inl e, out) ->
  e = AssertionError "Image must be RGB" \/ exists msg, e = ValueError msg.
Proof.
  intros Hlen Hrun. unfold build in Hrun.
  apply for_fold_error in Hrun as (i & c & out0 & _ & Hrow).
  destruct (for_fold (range (snd grid_size))
              (place_tile target_image cell_width cell_height
                 tile_images tile_colors i) c) as [[e'|c'] out1] eqn:Hinner.
  - cbn in Hrow. injection Hrow as -> _.
    apply for_fold_error in Hinner as (j & c0 & out2 & _ & Hcell).
    eapply place_tile_error; eauto.
  - cbn in Hrow. discriminate.
Qed.

(** X11.  The look-up [tile_images[tile_index]] of line 89 never raises:
    the only [IndexError] of a run of [create_mosaic] is the one of the
    loop of lines 66 and 67 (or one that the environment raised), so that a
    run that ends with an [IndexError] has taken no step of the assembly. *)
Theorem index_error_before_assembly (Image_open : string -> exn + PIL.Image)
    (os_listdir : string -> exn + list string)
    (Image_resize : PIL.Image -> Z * Z -> exn + PIL.Image)
    (target_image_path tile_image_dir : string) (grid_size : Z * Z)
    (msg : string) (out : list event) :
  create_mosaic Image_open os_listdir Image_resize
    target_image_path tile_image_dir grid_size = (inl (IndexError msg), out) ->
  existsb assembly_event out = false.
Proof.
  intros Hrun.
  destruct (create_mosaic_cases _ _ _ _ _ _ _ _ Hrun)
    as [(e & _ & Hno)|(target & files & resized & out_l & out_b & _ & _ & _
                        & _ & _ & _ & _ & _ & _ & Hbuild & _)]; [exact Hno|].
  exfalso. apply build_error in Hbuild as [H|[msg' H]]; try discriminate.
  exact (Forall2_length (colors_of_profile resized)).
Qed.

Lemma index_error_before_assembly_witness :
  exists out,
    create_mosaic (fs_open small_fs) (fs_listdir small_fs) resize_nearest
      "target.png" "tiles" (2, 2) = (inl (IndexError "list index out of range"), out)
    /\ existsb assembly_event out = false.
Proof.
  eexists. split; [vm_compute; reflexivity|].
  apply (index_error_before_assembly (fs_open small_fs) (fs_listdir small_fs)
           resize_nearest "target.png" "tiles" (2, 2) "list index out of range").
  vm_compute. reflexivity.
Defined.

(** ** What the assembly pastes, and where *)

Lemma for_fold_prefix {A S} (P : list A -> S -> Prop) (g : A -> list event)
    (body : S -> A -> M S) (xs : list A) :
  forall pre : list A,
    (forall pre' x s s' o,
        In x xs -> P pre' s -> body s x = (inr s', o) ->
        o = g x /\ P (pre' ++ [x]) s') ->
    forall s s' out,
      P pre s -> for_fold xs body s = (inr s', out) ->
      out = flat_map g xs /\ P (pre ++ xs) s'.
Proof.
  induction xs as [|x xs IH]; intros pre Hstep s s' out Hs Hrun.
  - cbn in Hrun. injection Hrun as <- <-. now rewrite app_nil_r.
  - cbn [for_fold] in Hrun.
    destruct (body s x) as [[e|s1] out1] eqn:Hx; [discriminate|].
    cbn [bind] in Hrun. destruct (for_fold xs body s1) as [r' out'] eqn:Hrest.
    injection Hrun as -> <-.
    destruct (Hstep pre x s s1 out1 (or_introl eq_refl) Hs Hx) as [-> Hs1].
    destruct (IH (pre ++ [x])
                 (fun pre' x' s0 s0' o Hin => Hstep pre' x' s0 s0' o (or_intror Hin))
                 s1 s' out' Hs1 Hrest) as [-> Hfinal].
    rewrite <- app_assoc in Hfinal. now split.
Qed.

Section Cells.

Variable target_image : PIL.Image.
Variable grid_size : Z * Z.
Variables cell_width cell_height : Z.
Variable tile_images : list PIL.Image.
Variable tile_colors : list color.
Variable canvas0 : PIL.Image.

Hypothesis tiles_fit :
  Forall (fun tile => PIL.size tile = (cell_width, cell_height)) tile_images.
Hypothesis columns_fit :
  0 < fst grid_size -> fst grid_size * cell_width <= PIL.width canvas0.
Hypothesis rows_fit :
  0 < snd grid_size -> snd grid_size * cell_height <= PIL.height canvas0.

Local Abbreviation shows :=
  (cell_shows target_image cell_width cell_height tile_images tile_colors).
Local Abbreviation tile_at :=
  (tile_of target_image cell_width cell_height tile_colors).

Lemma place_tile_step (i j : Z) (canvas canvas' : PIL.Image) (o : list event) :
  0 <= i < fst grid_size -> 0 <= j < snd grid_size ->
  PIL.size canvas = PIL.size canvas0 ->
  place_tile target_image cell_width cell_height tile_images tile_colors i canvas j
  = (inr canvas', o) ->
  o = [Paste (tile_at i j) (i * cell_width) (j * cell_height)
         (cell_width, cell_height)]
  /\ PIL.size canvas' = PIL.size canvas0
  /\ shows canvas' i j
  /\ (forall i' j', shows canvas i' j' -> shows canvas' i' j').
Proof.
  intros Hi Hj Hsz Hrun. unfold place_tile, lift, list_get in Hrun.
  destruct (average_color_cases
              (PIL.crop target_image
                 (i * cell_width, j * cell_height,
                  (i + 1) * cell_width, (j + 1) * cell_height)))
    as [[c Hc]|Hc]; rewrite Hc in Hrun; cbn [bind app] in Hrun; [|discriminate].
  destruct (closest_image tile_colors c) as [e|k] eqn:Hk; cbn [bind app] in Hrun;
    [discriminate|].
  destruct (nth_error tile_images k) as [tile|] eqn:Htile; cbn in Hrun;
    [|discriminate].
  injection Hrun as <- <-.
  assert (Hfit : PIL.size tile = (cell_width, cell_height)).
  { pose proof tiles_fit as H. rewrite Forall_forall in H.
    eapply H, nth_error_In; eauto. }
  assert (Hof : tile_at i j = k)
    by (unfold tile_of; rewrite Hc; cbn [fst]; now rewrite Hk).
  assert (Hpx : forall x y,
             PIL.px (PIL.paste canvas tile (i * cell_width) (j * cell_height)) x y
             = if PIL.inside canvas x y
                  && PIL.inside tile (x - i * cell_width) (y - j * cell_height)
               then PIL.to_rgb (PIL.im_mode tile)
                      (PIL.px tile (x - i * cell_width) (y - j * cell_height))
               else PIL.px canvas x y) by reflexivity.
  assert (Hin_tile : forall dx dy,
             PIL.inside tile dx dy = true <->
             (0 <= dx < cell_width /\ 0 <= dy < cell_height)).
  { intros dx dy. unfold PIL.inside, PIL.width, PIL.height. rewrite Hfit.
    cbn [fst snd]. rewrite !andb_true_iff, !Z.leb_le, !Z.ltb_lt. lia. }
  assert (Hin_canvas : forall dx dy,
             0 <= dx < cell_width -> 0 <= dy < cell_height ->
             PIL.inside canvas (i * cell_width + dx) (j * cell_height + dy) = true).
  { intros dx dy Hdx Hdy. unfold PIL.inside, PIL.width, PIL.height.
    rewrite Hsz. fold (PIL.width canvas0) (PIL.height canvas0).
    pose proof (columns_fit ltac:(lia)). pose proof (rows_fit ltac:(lia)).
    rewrite !andb_true_iff, !Z.leb_le, !Z.ltb_lt. nia. }
  split; [now rewrite Hfit, Hof|]. split; [exact Hsz|]. split.
  - exists c, k, tile. repeat split; trivial.
    intros dx dy Hdx Hdy. rewrite Hpx, (Hin_canvas dx dy Hdx Hdy).
    replace (i * cell_width + dx - i * cell_width) with dx by lia.
    replace (j * cell_height + dy - j * cell_height) with dy by lia.
    now rewrite (proj2 (Hin_tile dx dy) (conj Hdx Hdy)).
  - intros i' j' (c' & k' & tile' & Hc' & Hk' & Htile' & Hshow).
    exists c', k', tile'. repeat split; trivial.
    intros dx dy Hdx Hdy. rewrite Hpx.
    destruct (PIL.inside tile (i' * cell_width + dx - i * cell_width)
                (j' * cell_height + dy - j * cell_height)) eqn:Hin.
    + apply Hin_tile in Hin as [Hx Hy].
      assert (i' = i) by nia. assert (j' = j) by nia. subst i' j'.
      rewrite Hc in Hc'. injection Hc' as <-.
      rewrite Hk in Hk'. injection Hk' as <-.
      rewrite Htile in Htile'. injection Htile' as <-.
      rewrite (Hin_canvas dx dy Hdx Hdy). cbn [andb].
      replace (i * cell_width + dx - i * cell_width) with dx by lia.
      replace (j * cell_height + dy - j * cell_height) with dy by lia.
      reflexivity.
    + rewrite andb_false_r. now apply Hshow.
Qed.

(** The loops of the assembly, when they end: the effects are those of
    [assembly_trace], the canvas keeps its size, and every cell shows its
    tile. *)
Lemma build_spec (canvas : PIL.Image) (out : list event) :
  build target_image grid_size cell_width cell_height tile_images tile_colors canvas0
  = (inr canvas, out) ->
  out = assembly_trace target_image grid_size cell_width cell_height tile_colors
  /\ PIL.size canvas = PIL.size canvas0
  /\ forall i j, 0 <= i < fst grid_size -> 0 <= j < snd grid_size ->
                 shows canvas i j.
Proof.
  intros Hrun. unfold build in Hrun.
  pose (P := fun (done : list Z) (c : PIL.Image) =>
               PIL.size c = PIL.size canvas0
               /\ forall i j, In i done -> 0 <= j < snd grid_size -> shows c i j).
  assert (H : out = assembly_trace target_image grid_size cell_width cell_height
                      tile_colors
              /\ P ([] ++ range (fst grid_size)) canvas).
  { unfold assembly_trace. revert Hrun. apply for_fold_prefix.
    2: { split; [reflexivity|]. intros i j []. }
    intros done i c c' o Hi [Hsz Hdone] Hrow. apply in_range in Hi.
    destruct (for_fold (range (snd grid_size))
                (place_tile target_image cell_width cell_height
                   tile_images tile_colors i) c) as [[e|c1] out1] eqn:Hinner;
      cbn in Hrow; [discriminate|]. injection Hrow as <- <-.
    pose (Pi := fun (rows : list Z) (c0 : PIL.Image) =>
                  PIL.size c0 = PIL.size canvas0
                  /\ (forall i' j, In i' done -> 0 <= j < snd grid_size ->
                                   shows c0 i' j)
                  /\ (forall j, In j rows -> shows c0 i j)).
    assert (Hin : out1 = flat_map
                           (fun j => [Paste (tile_at i j) (i * cell_width)
                                        (j * cell_height) (cell_width, cell_height)])
                           (range (snd grid_size))
                  /\ Pi ([] ++ range (snd grid_size)) c1).
    { revert Hinner. apply for_fold_prefix.
      2: { repeat split; trivial. intros j []. }
      intros rows j c0 c0' o Hj (Hsz0 & Hdone0 & Hrows0) Hcell. apply in_range in Hj.
      destruct (place_tile_step i j c0 c0' o Hi Hj Hsz0 Hcell)
        as (-> & Hsz' & Hnew & Hkeep).
      split; [reflexivity|]. repeat split; trivial.
      - intros i' j' Hi' Hj'. apply Hkeep. now apply Hdone0.
      - intros j' Hj'. apply in_app_or in Hj' as [Hj'|[<-|[]]];
          [apply Hkeep; now apply Hrows0|exact Hnew]. }
    destruct Hin as (-> & Hsz1 & Hdone1 & Hrows1). cbn [app] in Hrows1.
    split; [now rewrite flat_map_singleton|]. split; [exact Hsz1|].
    intros i' j Hi' Hj. apply in_app_or in Hi' as [Hi'|[<-|[]]].
    - now apply Hdone1.
    - apply Hrows1. now apply in_range. }
  destruct H as (-> & Hsz & Hall). cbn [app] in Hall.
  split; [reflexivity|]. split; [exact Hsz|].
  intros i j Hi Hj. apply Hall; [now apply in_range|exact Hj].
Qed.

End Cells.

(** A run that returns a canvas: its stages. *)
Lemma valid_run_inv (Image_open : string -> exn + PIL.Image)
    (os_listdir : string -> exn + list string)
    (Image_resize : PIL.Image -> Z * Z -> exn + PIL.Image)
    (target_image_path tile_image_dir : string) (grid_size : Z * Z)
    (canvas : PIL.Image) (out : list event) :
  resizes_to_size Image_resize ->
  create_mosaic Image_open os_listdir Image_resize
    target_image_path tile_image_dir grid_size = (inr canvas, out) ->
  exists target_image files tile_images tile_colors out_l out_b,
    Image_open target_image_path = inr target_image
    /\ os_listdir tile_image_dir = inr files
    /\ load_tiles Image_open Image_resize tile_image_dir
         (PIL.width target_image / fst grid_size)
         (PIL.height target_image / snd grid_size) files
       = (inr (tile_images, tile_colors), out_l)
    /\ forallb loading_event out_l = true
    /\ Forall (fun tile => PIL.size tile
                           = (PIL.width target_image / fst grid_size,
                              PIL.height target_image / snd grid_size)) tile_images
    /\ build target_image grid_size
         (PIL.width target_image / fst grid_size)
         (PIL.height target_image / snd grid_size)
         tile_images tile_colors (PIL.new PIL.RGB (PIL.size target_image))
       = (inr canvas, out_b)
    /\ out = (preamble target_image grid_size ++ out_l
                ++ Print (AllLoaded (length tile_images))
                :: map (fun c => Print (ColorLine c)) (firstn 1000 tile_colors))
               ++ Print StartingMosaic :: out_b ++ [Print MosaicComplete].
Proof.
  intros Hresize Hrun.
  destruct (create_mosaic_cases _ _ _ _ _ _ _ _ Hrun)
    as [(e & He & _)|(target & files & resized & out_l & out_b & Hopen & _ & _
                       & Hdir & Hprep & Hload & _ & _ & Hout_l & Hbuild & ->)];
    [discriminate|].
  exists target, files, (filter profiled resized), (colors_of resized), out_l, out_b.
  repeat (split; [assumption|]). split; [|split; [exact Hbuild|]].
  - apply Forall_forall. intros tile Hin. apply filter_In in Hin as [Hin _].
    pose proof (traverse_inr _ _ _ Hprep) as Hall.
    rewrite Forall_forall in Hall. destruct (Hall tile Hin) as [f Hf].
    unfold prepare in Hf.
    destruct (Image_open (os_path_join tile_image_dir f)) as [e|t]; [discriminate|].
    now apply Hresize in Hf.
  - now rewrite <- !app_assoc.
Qed.

(** X12.  In a run that returns a canvas, the assembly has these effects
    and no other, in this order: the line that announces it, then, column
    after column, one paste per row, at the offset of the cell and of the
    tile that [closest_image] selects for the colour of that cell, followed
    by the line that reports the column, and at the end the line that
    reports the completion.  Nothing before these is an effect of the
    assembly. *)
Theorem assembly_effects (Image_open : string -> exn + PIL.Image)
    (os_listdir : string -> exn + list string)
    (Image_resize : PIL.Image -> Z * Z -> exn + PIL.Image)
    (target_image_path tile_image_dir : string) (grid_size : Z * Z)
    (canvas : PIL.Image) (out : list event) :
  resizes_to_size Image_resize ->
  create_mosaic Image_open os_listdir Image_resize
    target_image_path tile_image_dir grid_size = (inr canvas, out) ->
  exists target_image files tile_images tile_colors out_l out_before,
    Image_open target_image_path = inr target_image
    /\ os_listdir tile_image_dir = inr files
    /\ load_tiles Image_open Image_resize tile_image_dir
         (PIL.width target_image / fst grid_size)
         (PIL.height target_image / snd grid_size) files
       = (inr (tile_images, tile_colors), out_l)
    /\ existsb assembly_event out_before = false
    /\ out = out_before
               ++ Print StartingMosaic
               :: assembly_trace target_image grid_size
                    (PIL.width target_image / fst grid_size)
                    (PIL.height target_image / snd grid_size) tile_colors
               ++ [Print MosaicComplete].
Proof.
  intros Hresize Hrun.
  destruct (valid_run_inv _ _ _ _ _ _ _ _ Hresize Hrun)
    as (target & files & tile_images & tile_colors & out_l & out_b
        & Hopen & Hdir & Hload & Hout_l & Hfit & Hbuild & ->).
  destruct (build_spec target grid_size _ _ tile_images tile_colors
              (PIL.new PIL.RGB (PIL.size target)) Hfit
              ltac:(intros; apply Z.mul_div_le; assumption)
              ltac:(intros; apply Z.mul_div_le; assumption)
              canvas out_b Hbuild) as (-> & _ & _).
  exists target, files, tile_images, tile_colors, out_l. eexists.
  repeat (split; [eassumption|]). split; [|reflexivity].
  pose proof (no_assembly_in_loading _ Hout_l) as Hno. no_assembly Hno.
Qed.

(** The run on the thousand tiles of the sample returns a canvas. *)
Lemma big_run_returns :
  exists canvas out,
    create_mosaic (fs_open big_fs) (fs_listdir big_fs) resize_nearest
      "target.png" "tiles" (2, 2) = (inr canvas, out).
Proof.
  assert (H : match fst (create_mosaic (fs_open big_fs) (fs_listdir big_fs)
                            resize_nearest "target.png" "tiles" (2, 2)) with
              | inr _ => true
              | inl _ => false
              end = true) by (vm_compute; reflexivity).
  destruct (create_mosaic (fs_open big_fs) (fs_listdir big_fs) resize_nearest
              "target.png" "tiles" (2, 2)) as [[e|canvas] out].
  - discriminate H.
  - exists canvas, out. reflexivity.
Qed.

Lemma assembly_effects_witness :
  exists canvas out target_image files tile_images tile_colors out_l out_before,
    create_mosaic (fs_open big_fs) (fs_listdir big_fs) resize_nearest
      "target.png" "tiles" (2, 2) = (inr canvas, out)
    /\ fs_open big_fs "target.png" = inr target_image
    /\ fs_listdir big_fs "tiles" = inr files
    /\ load_tiles (fs_open big_fs) resize_nearest "tiles"
         (PIL.width target_image / fst (2, 2))
         (PIL.height target_image / snd (2, 2)) files
       = (inr (tile_images, tile_colors), out_l)
    /\ existsb assembly_event out_before = false
    /\ out = out_before
               ++ Print StartingMosaic
               :: assembly_trace target_image (2, 2)
                    (PIL.width target_image / fst (2, 2))
                    (PIL.height target_image / snd (2, 2)) tile_colors
               ++ [Print MosaicComplete].
Proof.
  destruct big_run_returns as (canvas & out & Hrun).
  destruct (assembly_effects (fs_open big_fs) (fs_listdir big_fs) resize_nearest
              "target.png" "tiles" (2, 2) canvas out
              resize_nearest_resizes_to_size Hrun)
    as (target & files & tile_images & tile_colors & out_l & out_before & H).
  exists canvas, out, target, files, tile_images, tile_colors, out_l, out_before.
  split; [exact Hrun|exact H].
Defined.

(** X13.  In a run that returns a canvas, every cell of the grid shows its
    tile: for the cell of column [i] and row [j], [average_color] returns
    a colour on that rectangle of the target, [closest_image] returns an
    index on that colour, and every pixel of the rectangle of the canvas
    is the pixel at the same place of the tile of that index, converted to
    RGB; no later paste overwrites it. *)
Theorem mosaic_cells (Image_open : string -> exn + PIL.Image)
    (os_listdir : string -> exn + list string)
    (Image_resize : PIL.Image -> Z * Z -> exn + PIL.Image)
    (target_image_path tile_image_dir : string) (grid_size : Z * Z)
    (canvas : PIL.Image) (out : list event) :
  resizes_to_size Image_resize ->
  create_mosaic Image_open os_listdir Image_resize
    target_image_path tile_image_dir grid_size = (inr canvas, out) ->
  exists target_image files tile_images tile_colors out_l,
    Image_open target_image_path = inr target_image
    /\ os_listdir tile_image_dir = inr files
    /\ load_tiles Image_open Image_resize tile_image_dir
         (PIL.width target_image / fst grid_size)
         (PIL.height target_image / snd grid_size) files
       = (inr (tile_images, tile_colors), out_l)
    /\ forall i j,
         0 <= i < fst grid_size -> 0 <= j < snd grid_size ->
         cell_shows target_image
           (PIL.width target_image / fst grid_size)
           (PIL.height target_image / snd grid_size)
           tile_images tile_colors canvas i j.
Proof.
  intros Hresize Hrun.
  destruct (valid_run_inv _ _ _ _ _ _ _ _ Hresize Hrun)
    as (target & files & tile_images & tile_colors & out_l & out_b
        & Hopen & Hdir & Hload & Hout_l & Hfit & Hbuild & _).
  destruct (build_spec target grid_size _ _ tile_images tile_colors
              (PIL.new PIL.RGB (PIL.size target)) Hfit
              ltac:(intros; apply Z.mul_div_le; assumption)
              ltac:(intros; apply Z.mul_div_le; assumption)
              canvas out_b Hbuild) as (_ & _ & Hcells).
  exists target, files, tile_images, tile_colors, out_l.
  repeat (split; [assumption|]). exact Hcells.
Qed.

Lemma mosaic_cells_witness :
  exists canvas out target_image files tile_images tile_colors out_l,
    create_mosaic (fs_open big_fs) (fs_listdir big_fs) resize_nearest
      "target.png" "tiles" (2, 2) = (inr canvas, out)
    /\ fs_open big_fs "target.png" = inr target_image
    /\ fs_listdir big_fs "tiles" = inr files
    /\ load_tiles (fs_open big_fs) resize_nearest "tiles"
         (PIL.width target_image / fst (2, 2))
         (PIL.height target_image / snd (2, 2)) files
       = (inr (tile_images, tile_colors), out_l)
    /\ forall i j,
         0 <= i < fst (2, 2) -> 0 <= j < snd (2, 2) ->
         cell_shows target_image
           (PIL.width target_image / fst (2, 2))
           (PIL.height target_image / snd (2, 2))
           tile_images tile_colors canvas i j.
Proof.
  destruct big_run_returns as (canvas & out & Hrun).
  destruct (mosaic_cells (fs_open big_fs) (fs_listdir big_fs) resize_nearest
              "target.png" "tiles" (2, 2) canvas out
              resize_nearest_resizes_to_size Hrun)
    as (target & files & tile_images & tile_colors & out_l & H).
  exists canvas, out, target, files, tile_images, tile_colors, out_l.
  split; [exact Hrun|exact H].
Defined.

(** ** The script *)




(** ** The colour of a cell *)

Lemma crop_sample (im : PIL.Image) (x0 y0 x1 y1 x y : Z) (k : nat) :
  PIL.inside im (x + x0) (y + y0) = true ->
  PIL.sample (PIL.crop im (x0, y0, x1, y1)) x y k = PIL.sample im (x + x0) (y + y0) k.
Proof. intros H. unfold PIL.sample. cbn [PIL.crop PIL.px]. now rewrite H. Qed.

Lemma flat_map_ext_in_list {A B} (f g : A -> list B) (l : list A) :
  (forall a, In a l -> f a = g a) -> flat_map f l = flat_map g l.
Proof.
  induction l as [|a l IH]; intros H; [reflexivity|].
  cbn [flat_map]. rewrite (H a) by now left.
  rewrite IH; [reflexivity|]. intros; apply H; now right.
Qed.

(** X15.  The colour that the assembly computes for the cell of column
    [i] and row [j] of an RGB target is made of the target's own pixels:
    its three components are the means of the three bands over the
    rectangle of [cell_width] by [cell_height] pixels at
    [(i * cell_width, j * cell_height)], which lies inside the target. *)
Theorem cell_color (target_image : PIL.Image) (grid_size : Z * Z) (i j : Z) :
  PIL.im_mode target_image = PIL.RGB ->
  0 <= PIL.width target_image -> 0 <= PIL.height target_image ->
  0 <= i < fst grid_size -> 0 <= j < snd grid_size ->
  let cell_width := PIL.width target_image / fst grid_size in
  let cell_height := PIL.height target_image / snd grid_size in
  average_color
    (PIL.crop target_image
       (i * cell_width, j * cell_height, (i + 1) * cell_width, (j + 1) * cell_height))
  = (inr (map (region_mean target_image (i * cell_width) (j * cell_height)
                 cell_width cell_height) [0; 1; 2]%nat), [])
  /\ 0 <= i * cell_width /\ (i + 1) * cell_width <= PIL.width target_image
  /\ 0 <= j * cell_height /\ (j + 1) * cell_height <= PIL.height target_image.
Proof.
  intros Hm Hw Hh Hi Hj cw ch.
  assert (Hcw : 0 <= cw) by (apply Z.div_pos; lia).
  assert (Hch : 0 <= ch) by (apply Z.div_pos; lia).
  assert (Hcols : fst grid_size * cw <= PIL.width target_image)
    by (apply Z.mul_div_le; lia).
  assert (Hrows : snd grid_size * ch <= PIL.height target_image)
    by (apply Z.mul_div_le; lia).
  split; [|nia].
  set (cell := PIL.crop target_image
                 (i * cw, j * ch, (i + 1) * cw, (j + 1) * ch)).
  assert (Ecw : PIL.width cell = cw) by (cbn; lia).
  assert (Ech : PIL.height cell = ch) by (cbn; lia).
  rewrite (average_color_bands cell (or_introl Hm)) by lia.
  change (PIL.im_mode cell) with (PIL.im_mode target_image). rewrite Hm.
  cbn [PIL.bands seq]. do 2 f_equal. apply map_ext. intros k.
  unfold arithmetic_mean, region_mean. rewrite Ecw, Ech. do 3 f_equal.
  apply flat_map_ext_in_list. intros y Hy. apply in_range in Hy.
  apply map_ext_in. intros x Hx. apply in_range in Hx.
  subst cell. apply crop_sample.
  unfold PIL.inside. rewrite !andb_true_iff, !Z.leb_le, !Z.ltb_lt. nia.
Qed.

Lemma cell_color_witness :
  average_color (PIL.crop target_2x2 (1 * 1, 0 * 1, (1 + 1) * 1, (0 + 1) * 1))
  = (inr (map (region_mean target_2x2 (1 * 1) (0 * 1) 1 1) [0; 1; 2]%nat), [])
  /\ 0 <= 1 * 1 /\ (1 + 1) * 1 <= PIL.width target_2x2
  /\ 0 <= 0 * 1 /\ (0 + 1) * 1 <= PIL.height target_2x2.
Proof.
  apply (cell_color target_2x2 (2, 2) 1 0); [reflexivity|..]; vm_compute;
    solve [discriminate | split; [discriminate|reflexivity]].
Defined.

(** ** The tiles that are skipped are reported *)

Lemma reported_app (out1 out2 : list event) :
  reported (out1 ++ out2) = reported out1 ++ reported out2.
Proof. apply flat_map_app. Qed.

Lemma load_tile_reported (Image_open : string -> exn + PIL.Image)
    (Image_resize : PIL.Image -> Z * Z -> exn + PIL.Image)
    (tile_image_dir : string) (cell_width cell_height : Z)
    (st st' : list PIL.Image * list color) (idx : Z) (file_name : string)
    (out : list event) :
  load_tile Image_open Image_resize tile_image_dir cell_width cell_height
    st (idx, file_name) = (inr st', out) ->
  reported out
  = if skipped Image_open Image_resize tile_image_dir cell_width cell_height file_name
    then [file_name] else [].
Proof.
  destruct st as [tile_images tile_colors].
  unfold skipped, prepare, load_tile, resize_image, lift.
  destruct (Image_open _) as [e|tile]; [discriminate|].
  cbn [bind app]. destruct (Image_resize tile _) as [e|im]; [discriminate|].
  cbn [bind app]. pose proof (average_color_profile im) as Hp. unfold profiled.
  destruct (profile im) as [c|]; rewrite Hp; cbn;
    destruct (idx mod 10 =? 0); cbn; intros H; injection H as _ <-; reflexivity.
Qed.

Lemma load_loop_reported (Image_open : string -> exn + PIL.Image)
    (Image_resize : PIL.Image -> Z * Z -> exn + PIL.Image)
    (tile_image_dir : string) (cell_width cell_height : Z)
    (entries : list (Z * string)) :
  forall st st' out,
    for_fold entries
      (load_tile Image_open Image_resize tile_image_dir cell_width cell_height) st
    = (inr st', out) ->
    reported out
    = filter (skipped Image_open Image_resize tile_image_dir cell_width cell_height)
             (map snd entries).
Proof.
  induction entries as [|[idx f] entries IH]; intros st st' out Hrun.
  - cbn in Hrun. now injection Hrun as _ <-.
  - cbn [for_fold] in Hrun.
    destruct (load_tile _ _ _ _ _ st (idx, f)) as [[e|s1] out1] eqn:Hx;
      [discriminate|].
    cbn [bind] in Hrun.
    destruct (for_fold entries _ s1) as [r' out'] eqn:Hrest.
    injection Hrun as -> <-.
    rewrite reported_app, (load_tile_reported _ _ _ _ _ _ _ _ _ _ Hx), (IH _ _ _ Hrest).
    cbn [map snd filter].
    now destruct (skipped Image_open Image_resize tile_image_dir
                    cell_width cell_height f).
Qed.

Lemma kept_or_skipped (Image_open : string -> exn + PIL.Image)
    (Image_resize : PIL.Image -> Z * Z -> exn + PIL.Image)
    (tile_image_dir : string) (cell_width cell_height : Z)
    (files : list string) (resized : list PIL.Image) :
  traverse (prepare Image_open Image_resize tile_image_dir cell_width cell_height)
    files = inr resized ->
  (length (filter profiled resized)
   + length (filter (skipped Image_open Image_resize tile_image_dir
                       cell_width cell_height) files))%nat
  = length files.
Proof.
  revert resized. induction files as [|f files IH]; intros resized H; cbn in H.
  - now injection H as <-.
  - destruct (prepare _ _ _ _ _ f) as [e|im] eqn:Hf; [discriminate|].
    destruct (traverse _ files) as [e|ims]; [discriminate|].
    injection H as <-. specialize (IH ims eq_refl). cbn [filter].
    assert (Es : skipped Image_open Image_resize tile_image_dir
                   cell_width cell_height f = negb (profiled im))
      by (unfold skipped; now rewrite Hf).
    rewrite Es. destruct (profiled im); cbn [negb length]; lia.
Qed.

(** X16.  When the loop over the tile directory ends, every entry is
    accounted for: the file names that the lines "Error converting ... to
    RGB" report are, in the order of the listing, the entries on which
    [average_color] raised, and the number of tiles loaded plus the number
    of entries reported is the number of entries. *)
Theorem skipped_tiles_reported (Image_open : string -> exn + PIL.Image)
    (Image_resize : PIL.Image -> Z * Z -> exn + PIL.Image)
    (tile_image_dir : string) (cell_width cell_height : Z) (files : list string)
    (tile_images : list PIL.Image) (tile_colors : list color) (out : list event) :
  load_tiles Image_open Image_resize tile_image_dir cell_width cell_height files
  = (inr (tile_images, tile_colors), out) ->
  reported out
  = filter (skipped Image_open Image_resize tile_image_dir cell_width cell_height)
           files
  /\ (length tile_images + length (reported out))%nat = length files.
Proof.
  intros Hrun.
  assert (Hrep := Hrun). unfold load_tiles in Hrep.
  apply load_loop_reported in Hrep. rewrite map_snd_enumerate in Hrep.
  split; [exact Hrep|]. rewrite Hrep.
  destruct (load_loop_spec Image_open Image_resize tile_image_dir
              cell_width cell_height (enumerate files) [] [])
    as (out' & _ & Hload).
  unfold load_tiles in Hrun. rewrite Hload, map_snd_enumerate in Hrun.
  destruct (traverse _ files) as [e|resized] eqn:Hprep; [discriminate|].
  injection Hrun as <- _ _. cbn [app]. now apply kept_or_skipped.
Qed.

Lemma skipped_tiles_reported_witness :
  exists (tile_images : list PIL.Image) (tile_colors : list color) out,
    load_tiles (fs_open small_fs) resize_nearest "tiles" 1 1
      ["red.png"; "clear.png"; "blue.png"]%string
    = (inr (tile_images, tile_colors), out)
    /\ reported out = ["clear.png"]%string
    /\ (length tile_images + length (reported out))%nat = 3%nat.
Proof.
  eexists _, _, _. split; [vm_compute; reflexivity|].
  destruct (skipped_tiles_reported (fs_open small_fs) resize_nearest "tiles" 1 1
              ["red.png"; "clear.png"; "blue.png"]%string _ _ _
              ltac:(vm_compute; reflexivity)) as [H1 H2].
  split; [rewrite H1; reflexivity|exact H2].
Defined.
